(** * better-middleware: the session-validation pipeline

    A shallow embedding of the token extractor and session cache
    ([utils/cache.ts]), the error classifier ([utils/error.ts]) and the
    middleware returned by [createAuthMiddleware] ([index.ts]), with the
    properties of each.

    Conventions.
    - JavaScript strings are [string]s of 8-bit characters.
    - [null] and [undefined] results are [None].
    - The logger only observes; its calls are left out.
    - Time is the millisecond clock read by the cache, an integer. *)

From Stdlib Require Import ZArith List String Ascii Bool Lia Sorted.
Import ListNotations.

Set Implicit Arguments.

Local Open Scope string_scope.
Local Open Scope list_scope.

(* ===================================================================== *)
(** * Regular expressions built from a cookie name                        *)
(* ===================================================================== *)

(** [extractSessionToken] builds [new RegExp(`${cookieName}=([^;]+)`)] and
    calls [cookieString.match] with it.  The pattern is a run of single
    character atoms followed by one greedy capture group.  The cookie name
    is pasted into the pattern unescaped, so a dot in it is the regular
    expression wildcard. *)
Module RegExp.

Inductive atom : Type :=
| Lit (c : ascii)     (* an ordinary character matches itself *)
| AnyChar.            (* [.] matches anything but a line terminator *)

Definition isLineTerminator (c : ascii) : bool :=
  Ascii.eqb c "010" || Ascii.eqb c "013".

Definition atomMatches (a : atom) (c : ascii) : bool :=
  match a with
  | Lit d => Ascii.eqb d c
  | AnyChar => negb (isLineTerminator c)
  end.

(** How the pattern source reads one character of a cookie name. *)
Definition compileChar (c : ascii) : atom :=
  if Ascii.eqb c "." then AnyChar else Lit c.

Fixpoint compile (source : string) : list atom :=
  match source with
  | EmptyString => []
  | String c rest => compileChar c :: compile rest
  end.

(** The same name with every character escaped: the reading under which
    the name is a literal cookie name. *)
Fixpoint literal (source : string) : list atom :=
  match source with
  | EmptyString => []
  | String c rest => Lit c :: literal rest
  end.

(** Match the atoms at the start of [s]; the rest of [s] on success. *)
Fixpoint matchAtoms (p : list atom) (s : string) : option string :=
  match p, s with
  | [], _ => Some s
  | _ :: _, EmptyString => None
  | a :: p', String c s' =>
      if atomMatches a c then matchAtoms p' s' else None
  end.

(** [[^;]+] is greedy and ends the pattern: it takes the longest run of
    characters other than [;]. *)
Fixpoint takeValue (s : string) : string :=
  match s with
  | EmptyString => EmptyString
  | String c s' =>
      if Ascii.eqb c ";" then EmptyString else String c (takeValue s')
  end.

(** One attempt of [name=([^;]+)] at the start of [s]: the capture. *)
Definition matchHere (name : list atom) (s : string) : option string :=
  match matchAtoms (name ++ [Lit "="]) s with
  | Some rest =>
      match takeValue rest with
      | EmptyString => None          (* [+] needs one character *)
      | v => Some v
      end
  | None => None
  end.

(** [String.prototype.match] without the [g] flag: the attempt is made at
    each start position from the left, the first success wins.  The
    result is capture group 1 of the match array, [None] for [null]. *)
Fixpoint exec (name : list atom) (s : string) : option string :=
  match matchHere name s with
  | Some v => Some v
  | None =>
      match s with
      | EmptyString => None
      | String _ s' => exec name s'
      end
  end.

End RegExp.

(* ===================================================================== *)
(** * Token extractor: [SessionCache.extractSessionToken]                  *)
(* ===================================================================== *)

Definition sessionCookieNames : list string :=
  [ "better-auth.session_token"; "session_token"; "session" ].

(** A JavaScript string is falsy exactly when it is empty. *)
Definition truthy (s : string) : bool :=
  match s with EmptyString => false | _ => true end.

(** The [for ... of] loop: [mk] turns a name into its pattern. *)
Fixpoint firstMatch (mk : string -> list RegExp.atom)
         (names : list string) (cookieString : string) : option string :=
  match names with
  | [] => None
  | cookieName :: rest =>
      match RegExp.exec (mk cookieName) cookieString with
      | Some v => if truthy v then Some v else firstMatch mk rest cookieString
      | None => firstMatch mk rest cookieString
      end
  end.

Definition extractSessionToken (cookieString : string) : option string :=
  if truthy cookieString
  then firstMatch RegExp.compile sessionCookieNames cookieString
  else None.

(** The extractor of the specification: the same loop, each candidate read
    as a literal cookie name. *)
Definition extractTokenSpec (cookieString : string) : option string :=
  if truthy cookieString
  then firstMatch RegExp.literal sessionCookieNames cookieString
  else None.

(* ===================================================================== *)
(** * Error classifier: [utils/error.ts]                                   *)
(* ===================================================================== *)

Module Classifier.

Inductive Lang : Type := en | es.

Record Messages : Type := { msg_en : string; msg_es : string }.

Definition ERROR_MESSAGES : list (string * Messages) :=
  [ ("USER_ALREADY_EXISTS",
     {| msg_en := "User already registered";
        msg_es := "Usuario ya registrado" |});
    ("INVALID_CREDENTIALS",
     {| msg_en := "Invalid email or password";
        msg_es := "Correo o contraseña inválidos" |});
    ("UNAUTHORIZED",
     {| msg_en := "Unauthorized access";
        msg_es := "Acceso no autorizado" |});
    ("SESSION_EXPIRED",
     {| msg_en := "Session has expired";
        msg_es := "La sesión ha expirado" |});
    ("INVALID_SESSION",
     {| msg_en := "Invalid or missing session";
        msg_es := "Sesión inválida o faltante" |}) ].

(** [ERROR_MESSAGES[errorCode]] on the own properties of the table.  The
    members an object literal inherits (such as [constructor]) carry no
    [en] or [es] property, so they end in the same fallback as a code
    that is not in the table. *)
Fixpoint lookup (errorCode : string) (table : list (string * Messages))
  : option Messages :=
  match table with
  | [] => None
  | (c, m) :: rest => if String.eqb c errorCode then Some m else lookup errorCode rest
  end.

Definition pick (lang : Lang) (m : Messages) : string :=
  match lang with en => msg_en m | es => msg_es m end.

(** [ERROR_MESSAGES[errorCode]?.[lang] || "Unknown error"]. *)
Definition getErrorMessage (errorCode : string) (lang : Lang) : string :=
  match lookup errorCode ERROR_MESSAGES with
  | Some m => if truthy (pick lang m) then pick lang m else "Unknown error"
  | None => "Unknown error"
  end.

(** A value a [catch] clause can receive, as far as the classifier reads
    it: the three properties [code], [message] and [status], each
    possibly missing.  [new Error(m)] is an object with only a message. *)
Inductive Thrown : Type :=
| TNull
| TUndefined
| TString (s : string)
| TObject (code message : option string) (status : option Z).

Definition newError (message : string) : Thrown :=
  TObject None (Some message) None.

(** [(error as BetterAuthError)?.code] and its two siblings. *)
Definition codeOf (error : Thrown) : option string :=
  match error with TObject c _ _ => c | _ => None end.

Definition messageOf (error : Thrown) : option string :=
  match error with TObject _ m _ => m | _ => None end.

Definition statusOf (error : Thrown) : option Z :=
  match error with TObject _ _ s => s | _ => None end.

(** [x || fallback] on an optional string and on an optional number. *)
Definition orString (x : option string) (fallback : string) : string :=
  match x with
  | Some s => if truthy s then s else fallback
  | None => fallback
  end.

Definition orNumber (x : option Z) (fallback : Z) : Z :=
  match x with
  | Some n => if Z.eqb n 0 then fallback else n
  | None => fallback
  end.

Definition isTruthy (x : option string) : bool :=
  match x with Some s => truthy s | None => false end.

(** The body handed to the adapter: [{ success: false, message, code }]. *)
Record Body : Type := { success : bool; message : string; code : string }.

Section CreateErrorResponse.
Variables Ctx Resp : Type.

Definition createErrorResponse (error : Thrown) (ctx : Ctx)
           (createResponse : Ctx -> Body -> Z -> Resp) : Resp :=
  let code := orString (codeOf error) "UNAUTHORIZED" in
  let message :=
    if isTruthy (codeOf error)
    then getErrorMessage code en
    else orString (messageOf error) "Invalid or missing session" in
  let status := orNumber (statusOf error) 401 in
  createResponse ctx
    {| success := false; message := message; code := code |} status.
End CreateErrorResponse.

End Classifier.

(* ===================================================================== *)
(** * The [lru-cache] store behind [SessionCache]                          *)
(* ===================================================================== *)

(** [SessionCache] delegates every operation to an [LRUCache] of the
    [lru-cache] package, a dependency whose text is not part of the
    sources.  The model below is that package's behaviour for the four
    options [SessionCache] passes ([max], [ttl], [allowStale],
    [updateAgeOnGet]) with every other option at its default:

    - the entries are kept in recency order, least recently used first;
    - [set] stamps an entry with the current time and makes it the most
      recent; a new key in a full cache first evicts the least recent;
    - an entry is stale once more than its ttl has passed since its stamp
      ([now - start > ttl]); a ttl of 0 means no expiry;
    - [get] on a stale entry deletes it and, unless [allowStale], returns
      nothing; [get] on a live entry makes it the most recent and, with
      [updateAgeOnGet], stamps it with the current time;
    - [has] is false for a stale entry and changes nothing.

    The constructor's check of its options (it throws unless [max] and
    [ttl] are non-negative integers, not both 0) is left out: [create]
    takes the options as given. *)
Module LRUCache.
Section Store.
Variable V : Type.

Record Options : Type :=
  { max : nat; ttl : Z; allowStale : bool; updateAgeOnGet : bool }.

Record Entry : Type :=
  { key : string; value : V; start : Z; entryTtl : Z }.

Record t : Type := { options : Options; entries : list Entry }.

Definition withEntries (c : t) (es : list Entry) : t :=
  {| options := options c; entries := es |}.

Definition create (o : Options) : t := {| options := o; entries := [] |}.

Definition isKey (k : string) (e : Entry) : bool := String.eqb (key e) k.

Definition lookupEntry (k : string) (c : t) : option Entry :=
  find (isKey k) (entries c).

Definition without (k : string) (es : list Entry) : list Entry :=
  filter (fun e => negb (isKey k e)) es.

(** [!!t && !!s && now - s > t]. *)
Definition isStale (now : Z) (e : Entry) : bool :=
  negb (Z.eqb (entryTtl e) 0) && negb (Z.eqb (start e) 0)
  && Z.gtb (now - start e) (entryTtl e).

(** The stamp written by [set] and by an age update. *)
Definition stamp (now ttl : Z) : Z := if Z.eqb ttl 0 then 0 else now.

Definition size (c : t) : nat := List.length (entries c).

Definition delete (k : string) (c : t) : t :=
  withEntries c (without k (entries c)).

Definition clear (c : t) : t := withEntries c [].

Definition has (now : Z) (k : string) (c : t) : bool :=
  match lookupEntry k c with
  | Some e => negb (isStale now e)
  | None => false
  end.

Definition get (now : Z) (k : string) (c : t) : option V * t :=
  match lookupEntry k c with
  | None => (None, c)
  | Some e =>
      if isStale now e
      then ((if allowStale (options c) then Some (value e) else None),
            delete k c)
      else
        let e' :=
          {| key := key e; value := value e;
             start := if updateAgeOnGet (options c)
                      then stamp now (entryTtl e) else start e;
             entryTtl := entryTtl e |} in
        (Some (value e), withEntries c (without k (entries c) ++ [e']))
  end.

(** The least recently used entry leaves when a new key meets a full
    cache ([size === max]); an empty cache never evicts. *)
Definition evict (c : t) : list Entry :=
  match entries c with
  | [] => []
  | (_ :: rest) as es =>
      if Nat.eqb (List.length es) (max (options c)) then rest else es
  end.

Definition set (now : Z) (k : string) (v : V) (c : t) : t :=
  let e :=
    {| key := k; value := v;
       start := stamp now (ttl (options c));
       entryTtl := ttl (options c) |} in
  match lookupEntry k c with
  | Some _ => withEntries c (without k (entries c) ++ [e])
  | None => withEntries c (evict c ++ [e])
  end.

Definition keys (c : t) : list string := map key (entries c).

End Store.
End LRUCache.

(* ===================================================================== *)
(** * [SessionCache]: [utils/cache.ts]                                     *)
(* ===================================================================== *)

Record BetterAuthUser : Type :=
  { user_id : string; user_email : string; user_name : option string;
    user_extra : list (string * string) }.

Record BetterAuthSession : Type :=
  { session_id : string; session_userId : string; session_expiresAt : string;
    session_extra : list (string * string) }.

Record AuthContext : Type :=
  { user : BetterAuthUser; session : BetterAuthSession }.

Module SessionCache.

Definition t : Type := LRUCache.t AuthContext.

(** [new SessionCache(max, ttl)], [ttl] in seconds. *)
Definition new (max : nat) (ttl : Z) : t :=
  LRUCache.create AuthContext
    {| LRUCache.max := max;
       LRUCache.ttl := (ttl * 1000)%Z;
       LRUCache.allowStale := false;
       LRUCache.updateAgeOnGet := true |}.

Definition get (now : Z) (key : string) (c : t) : option AuthContext * t :=
  LRUCache.get now key c.

Definition set (now : Z) (key : string) (value : AuthContext) (c : t) : t :=
  LRUCache.set now key value c.

Definition delete (key : string) (c : t) : t := LRUCache.delete key c.

Definition has (now : Z) (key : string) (c : t) : bool :=
  LRUCache.has now key c.

Definition clear (c : t) : t := LRUCache.clear c.

Definition size (c : t) : nat := LRUCache.size c.

Definition keys (c : t) : list string := LRUCache.keys c.

End SessionCache.

(* ===================================================================== *)
(** * The middleware: [createAuthMiddleware] in [index.ts]                 *)
(* ===================================================================== *)

Module Middleware.
Import Classifier.

(** A call either returns or throws (an awaited promise: resolves or
    rejects). *)
Inductive Outcome (A : Type) : Type :=
| Ok (a : A)
| Throw (e : Thrown).
Arguments Ok {A} a.
Arguments Throw {A} e.

Record Headers : Type :=
  { cookie : option string; otherHeaders : list (string * string) }.

Record BetterAuthError : Type :=
  { err_message : option string; err_code : option string;
    err_status : option Z }.

(** [throw sessionResponse.error] throws the error object itself. *)
Definition thrownOf (e : BetterAuthError) : Thrown :=
  TObject (err_code e) (err_message e) (err_status e).

Record SessionData : Type :=
  { data_user : option BetterAuthUser;
    data_session : option BetterAuthSession }.

Record BetterAuthSessionResponse : Type :=
  { data : option SessionData; error : option BetterAuthError }.

Record CacheOptions : Type :=
  { enabled : bool; cache_ttl : option Z; cache_max : option nat }.

Inductive ContextValue : Type :=
| UserValue (u : BetterAuthUser)
| SessionValue (s : BetterAuthSession).

(** What one invocation does to the outside, in order. *)
Inductive Event : Type :=
| EvGetSession (headers : Headers)
| EvSetContext (key : string) (v : ContextValue)
| EvNext
| EvOnError (e : Thrown).

(** The times at which the three cache calls of one invocation read the
    clock. *)
Record Clock : Type := { t_has : Z; t_get : Z; t_set : Z }.

Section WithFramework.
Variables Req Ctx Resp : Type.

Record Framework : Type :=
  { getHeaders : Req -> Outcome Headers;
    setContext : Ctx -> string -> ContextValue -> Ctx;
    createResponse : Ctx -> Body -> Z -> Resp }.

Record AuthMiddlewareOptions : Type :=
  { cache : option CacheOptions;
    onError : option (Thrown -> Ctx -> Outcome Resp);
    framework : Framework }.

(** [x || fallback] on an optional count. *)
Definition orNat (x : option nat) (fallback : nat) : nat :=
  match x with
  | Some O => fallback
  | Some n => n
  | None => fallback
  end.

(** [cache?.enabled ? new SessionCache(cache.max || 1000,
    cache.ttl || 300) : null]. *)
Definition initialCache (options : AuthMiddlewareOptions)
  : option SessionCache.t :=
  match cache options with
  | Some c =>
      if enabled c
      then Some (SessionCache.new (orNat (cache_max c) 1000)
                                  (orNumber (cache_ttl c) 300))
      else None
  | None => None
  end.

(** The state an invocation works on: the cache of the middleware
    instance, the caller's context object and the log of calls made. *)
Record World : Type :=
  { sessionCache : option SessionCache.t;
    context : Ctx;
    events : list Event }.

Definition M (A : Type) : Type := World -> Outcome A * World.

Definition ret {A} (a : A) : M A := fun w => (Ok a, w).

Definition throw {A} (e : Thrown) : M A := fun w => (Throw e, w).

Definition bind {A B} (m : M A) (k : A -> M B) : M B :=
  fun w =>
    match m w with
    | (Ok a, w') => k a w'
    | (Throw e, w') => (Throw e, w')
    end.

Definition tryCatch {A} (body : M A) (handler : Thrown -> M A) : M A :=
  fun w =>
    match body w with
    | (Ok a, w') => (Ok a, w')
    | (Throw e, w') => handler e w'
    end.

Definition lift {A} (o : Outcome A) : M A := fun w => (o, w).

Definition emit (ev : Event) : M unit :=
  fun w =>
    (Ok tt, {| sessionCache := sessionCache w; context := context w;
               events := events w ++ [ev] |}).

Definition getContext : M Ctx := fun w => (Ok (context w), w).

Definition putContext (c : Ctx) : M unit :=
  fun w =>
    (Ok tt, {| sessionCache := sessionCache w; context := c;
               events := events w |}).

Definition putCache (c : option SessionCache.t) : M unit :=
  fun w =>
    (Ok tt, {| sessionCache := c; context := context w;
               events := events w |}).

Definition getCache : M (option SessionCache.t) :=
  fun w => (Ok (sessionCache w), w).

Notation "x <- m ;; k" := (bind m (fun x => k))
  (at level 100, m at next level, right associativity).
Notation "m ;;; k" := (bind m (fun _ => k))
  (at level 100, right associativity).

Section Invocation.
Variable options : AuthMiddlewareOptions.
(** [authClient.getSession], the continuation and the clock. *)
Variable getSession : Headers -> Outcome BetterAuthSessionResponse.
Variable next : Ctx -> Outcome Ctx.
Variable clock : Clock.
Variable req : Req.

(** [sessionCache?.has(sessionToken)]. *)
Definition cacheHas (sessionToken : string) : M bool :=
  c <- getCache ;;
  match c with
  | Some c => ret (SessionCache.has (t_has clock) sessionToken c)
  | None => ret false
  end.

Definition cacheGet (sessionToken : string) : M (option AuthContext) :=
  c <- getCache ;;
  match c with
  | Some c =>
      let (r, c') := SessionCache.get (t_get clock) sessionToken c in
      putCache (Some c') ;;; ret r
  | None => ret None
  end.

(** [if (sessionCache) sessionCache.set(sessionToken, authContext)]. *)
Definition cacheSet (sessionToken : string) (authContext : AuthContext)
  : M unit :=
  c <- getCache ;;
  match c with
  | Some c =>
      putCache (Some (SessionCache.set (t_set clock) sessionToken
                                       authContext c))
  | None => ret tt
  end.

Definition frameworkSetContext (key : string) (v : ContextValue)
  : M unit :=
  ctx <- getContext ;;
  emit (EvSetContext key v) ;;;
  putContext (setContext (framework options) ctx key v).

(** [await next()]. *)
Definition awaitNext : M unit :=
  ctx <- getContext ;;
  emit EvNext ;;;
  ctx' <- lift (next ctx) ;;
  putContext ctx'.

(** [await authClient.getSession({ fetchOptions: { headers } })]. *)
Definition awaitGetSession (headers : Headers)
  : M BetterAuthSessionResponse :=
  emit (EvGetSession headers) ;;;
  lift (getSession headers).

Definition proceed (authContext : AuthContext) : M (option Resp) :=
  frameworkSetContext "user" (UserValue (user authContext)) ;;;
  frameworkSetContext "session" (SessionValue (session authContext)) ;;;
  awaitNext ;;;
  ret None.

(** Lines 82 to 121: the remote resolution. *)
Definition resolveRemotely (headers : Headers) (sessionToken : string)
  : M (option Resp) :=
  sessionResponse <- awaitGetSession headers ;;
  match error sessionResponse with
  | Some e => throw (thrownOf e)
  | None =>
      let d := data sessionResponse in
      match match d with Some d => data_session d | None => None end,
            match d with Some d => data_user d | None => None end with
      | Some s, Some u =>
          let authContext := {| user := u; session := s |} in
          cacheSet sessionToken authContext ;;;
          proceed authContext
      | _, _ => throw (newError "Invalid session response")
      end
  end.

(** Lines 58 to 121: the body of the [try]. *)
Definition attempt : M (option Resp) :=
  headers <- lift (getHeaders (framework options) req) ;;
  let cookieString := orString (cookie headers) "" in
  match extractSessionToken cookieString with
  | None => throw (newError "No session token found")
  | Some sessionToken =>
      if negb (truthy sessionToken)
      then throw (newError "No session token found")
      else
        hit <- cacheHas sessionToken ;;
        if hit
        then
          cached <- cacheGet sessionToken ;;
          match cached with
          | Some cached => proceed cached
          | None => resolveRemotely headers sessionToken
          end
        else resolveRemotely headers sessionToken
  end.

(** Lines 122 to 132: the [catch]. *)
Definition recover (error : Thrown) : M (option Resp) :=
  ctx <- getContext ;;
  match onError options with
  | Some hook =>
      emit (EvOnError error) ;;;
      r <- lift (hook error ctx) ;;
      ret (Some r)
  | None =>
      ret (Some (createErrorResponse error ctx
                   (createResponse (framework options))))
  end.

Definition middleware : M (option Resp) := tryCatch attempt recover.

End Invocation.

(** Observations on a finished invocation. *)
Definition isGetSession (ev : Event) : bool :=
  match ev with EvGetSession _ => true | _ => false end.

Definition isSetContext (ev : Event) : bool :=
  match ev with EvSetContext _ _ => true | _ => false end.

Definition remoteCalls (w : World) : nat :=
  List.length (filter isGetSession (events w)).

Definition injected (w : World) : list Event :=
  filter isSetContext (events w).

Definition start (c : option SessionCache.t) (ctx : Ctx) : World :=
  {| sessionCache := c; context := ctx; events := [] |}.

End WithFramework.
End Middleware.

(* ===================================================================== *)
(** * Notions used to state the properties                                 *)
(* ===================================================================== *)

(** No [;] in a string. *)
Fixpoint semicolonFree (s : string) : bool :=
  match s with
  | EmptyString => true
  | String c s' => negb (Ascii.eqb c ";") && semicolonFree s'
  end.

(** What may follow a cookie value: the end of the header or a [;]. *)
Definition endsValue (post : string) : bool :=
  match post with
  | EmptyString => true
  | String c _ => Ascii.eqb c ";"
  end.

(** [name] occurs in [s] with value [v]: somewhere in [s] stands a text
    [m] that the pattern accepts, then [=], then [v], a non-empty value
    that runs to the next [;] or to the end. *)
Definition occursWith (name : list RegExp.atom) (s v : string) : Prop :=
  exists pre m post,
    s = (pre ++ m ++ "=" ++ v ++ post)%string
    /\ RegExp.matchAtoms name m = Some EmptyString
    /\ v <> EmptyString
    /\ semicolonFree v = true
    /\ endsValue post = true.





(** The triple the classifier computes, read off the adapter call that
    [createErrorResponse] makes. *)
Definition classify (error : Classifier.Thrown) : Classifier.Body * Z :=
  Classifier.createErrorResponse error tt (fun _ body status => (body, status)).

(** [set] called once per item, in order. *)
Record Insertion : Type :=
  { at_time : Z; token : string; resolved : AuthContext }.

Definition insertAll (items : list Insertion) (c : SessionCache.t)
  : SessionCache.t :=
  fold_left (fun c i => SessionCache.set (at_time i) (token i) (resolved i) c)
            items c.

(** The adapter of the README examples for plain request objects:
    [getHeaders] returns the request's headers, [setContext] assigns the
    property, [createResponse] returns [{ status, body }]. *)
Record PlainContext : Type :=
  { ctx_user : option BetterAuthUser; ctx_session : option BetterAuthSession }.

Record AuthResponse : Type :=
  { status : Z; body : Classifier.Body }.

Definition plainFramework
  : Middleware.Framework Middleware.Headers PlainContext AuthResponse :=
  {| Middleware.getHeaders := fun req => Middleware.Ok req;
     Middleware.setContext := fun ctx _ v =>
       match v with
       | Middleware.UserValue u =>
           {| ctx_user := Some u; ctx_session := ctx_session ctx |}
       | Middleware.SessionValue s =>
           {| ctx_user := ctx_user ctx; ctx_session := Some s |}
       end;
     Middleware.createResponse := fun _ b s => {| status := s; body := b |} |}.

Definition emptyContext : PlainContext :=
  {| ctx_user := None; ctx_session := None |}.

Definition sampleUser : BetterAuthUser :=
  {| user_id := "u1"; user_email := "a@b.com"; user_name := None;
     user_extra := [] |}.

Definition sampleSession : BetterAuthSession :=
  {| session_id := "s1"; session_userId := "u1";
     session_expiresAt := "2030-01-01T00:00:00Z"; session_extra := [] |}.

Definition sampleContext : AuthContext :=
  {| user := sampleUser; session := sampleSession |}.

(** The keys of a list other than [k], in their order. *)
Definition others (k : string) (ks : list string) : list string :=
  filter (fun x => negb (String.eqb x k)) ks.

(** Every state of a cache that [new SessionCache(max, ttl)] made: its
    options, with some list of entries. *)
Definition sessionCacheWith (max : nat) (ttl : Z)
           (es : list (LRUCache.Entry AuthContext)) : SessionCache.t :=
  LRUCache.withEntries (SessionCache.new max ttl) es.

(** The Resolved Context of a response: there is one only when both the
    session and the user are present. *)
Definition resolvedContext (r : Middleware.BetterAuthSessionResponse)
  : option AuthContext :=
  match Middleware.data r with
  | Some d =>
      match Middleware.data_session d, Middleware.data_user d with
      | Some s, Some u => Some {| user := u; session := s |}
      | _, _ => None
      end
  | None => None
  end.

(** The two [setContext] calls of a successful invocation, as events and
    as their effect on the context. *)
Definition injections (a : AuthContext) : list Middleware.Event :=
  [ Middleware.EvSetContext "user" (Middleware.UserValue (user a));
    Middleware.EvSetContext "session" (Middleware.SessionValue (session a)) ].

Definition inject {Req Ctx Resp : Type}
           (fw : Middleware.Framework Req Ctx Resp) (ctx : Ctx)
           (a : AuthContext) : Ctx :=
  Middleware.setContext fw
    (Middleware.setContext fw ctx "user" (Middleware.UserValue (user a)))
    "session" (Middleware.SessionValue (session a)).


Definition withEvents {Ctx : Type} (w : Middleware.World Ctx)
           (evs : list Middleware.Event) : Middleware.World Ctx :=
  {| Middleware.sessionCache := Middleware.sessionCache w;
     Middleware.context := Middleware.context w;
     Middleware.events := Middleware.events w ++ evs |}.

(** Sample collaborators for the plain adapter. *)
Definition plainOptions (cache : option Middleware.CacheOptions)
           (onError : option (Classifier.Thrown -> PlainContext ->
                              Middleware.Outcome AuthResponse))
  : Middleware.AuthMiddlewareOptions Middleware.Headers PlainContext
                                     AuthResponse :=
  {| Middleware.cache := cache;
     Middleware.onError := onError;
     Middleware.framework := plainFramework |}.



Definition cacheEnabled : option Middleware.CacheOptions :=
  Some {| Middleware.enabled := true; Middleware.cache_ttl := None;
          Middleware.cache_max := None |}.

Definition requestWith (cookie : option string) : Middleware.Headers :=
  {| Middleware.cookie := cookie; Middleware.otherHeaders := [] |}.

Definition respond (r : Middleware.BetterAuthSessionResponse)
  : Middleware.Headers -> Middleware.Outcome Middleware.BetterAuthSessionResponse :=
  fun _ => Middleware.Ok r.

Definition sampleResponse : Middleware.BetterAuthSessionResponse :=
  {| Middleware.data :=
       Some {| Middleware.data_user := Some sampleUser;
               Middleware.data_session := Some sampleSession |};
     Middleware.error := None |}.

Definition expiredResponse : Middleware.BetterAuthSessionResponse :=
  {| Middleware.data := None;
     Middleware.error :=
       Some {| Middleware.err_message := Some "...";
               Middleware.err_code := Some "SESSION_EXPIRED";
               Middleware.err_status := Some 401%Z |} |}.

Definition continue : PlainContext -> Middleware.Outcome PlainContext :=
  fun ctx => Middleware.Ok ctx.

Definition clockAt (h g s : Z) : Middleware.Clock :=
  {| Middleware.t_has := h; Middleware.t_get := g; Middleware.t_set := s |}.

(** The token found in the headers of a request:
    [extractSessionToken(headers.cookie || "")]. *)
Definition tokenOf (h : Middleware.Headers) : option string :=
  extractSessionToken (Classifier.orString (Middleware.cookie h) "").

(** The calls a user of [SessionCache] can make, with the clock reading of
    each call that reads the clock, and a run of such calls on a cache. *)
Inductive CacheOp : Type :=
| OpSet (now : Z) (key : string) (value : AuthContext)
| OpGet (now : Z) (key : string)
| OpHas (now : Z) (key : string)
| OpDelete (key : string)
| OpClear.

Definition applyOp (op : CacheOp) (c : SessionCache.t) : SessionCache.t :=
  match op with
  | OpSet now k v => SessionCache.set now k v c
  | OpGet now k => snd (SessionCache.get now k c)
  | OpHas _ _ => c
  | OpDelete k => SessionCache.delete k c
  | OpClear => SessionCache.clear c
  end.

Definition applyOps (ops : list CacheOp) (c : SessionCache.t)
  : SessionCache.t :=
  fold_left (fun c op => applyOp op c) ops c.

(** The clock never runs backwards over a run of calls that starts at
    time [t]. *)
Fixpoint chronological (t : Z) (ops : list CacheOp) : Prop :=
  match ops with
  | [] => True
  | OpSet now _ _ :: rest => (t <= now)%Z /\ chronological now rest
  | OpGet now _ :: rest => (t <= now)%Z /\ chronological now rest
  | OpHas now _ :: rest => (t <= now)%Z /\ chronological now rest
  | _ :: rest => chronological t rest
  end.

(** The stamps of the entries, least recently used first. *)
Definition stamps (c : SessionCache.t) : list Z :=
  map (@LRUCache.start AuthContext) (LRUCache.entries c).

(** The entries are in the order of their stamps, none of which is later
    than [t], and every entry carries the ttl of the cache. *)
Definition byStamp (a b : LRUCache.Entry AuthContext) : Prop :=
  (LRUCache.start a <= LRUCache.start b)%Z.

Definition inStampOrder (t : Z) (c : SessionCache.t) : Prop :=
  StronglySorted byStamp (LRUCache.entries c)
  /\ Forall (fun e => (LRUCache.start e <= t)%Z) (LRUCache.entries c)
  /\ Forall (fun e => LRUCache.entryTtl e = LRUCache.ttl (LRUCache.options c))
            (LRUCache.entries c).

(** The calls one invocation may log: at most one remote call, then at
    most one continuation, which comes right after the two injections of
    one pair, then at most one call of the error hook. *)
Definition orderlyRun (evs : list Middleware.Event) : Prop :=
  exists pre core post,
    evs = pre ++ core ++ post
    /\ (pre = [] \/ exists h, pre = [Middleware.EvGetSession h])
    /\ (core = [] \/ exists a, core = injections a ++ [Middleware.EvNext])
    /\ (post = [] \/ exists e, post = [Middleware.EvOnError e]).

(** What the body of the [try] logs, and that it returns only after a
    continuation. *)
Definition attemptShape {Ctx Resp : Type} (w : Middleware.World Ctx)
           (res : Middleware.Outcome (option Resp) * Middleware.World Ctx)
  : Prop :=
  exists pre core,
    Middleware.events (snd res) = Middleware.events w ++ pre ++ core
    /\ (pre = [] \/ exists h, pre = [Middleware.EvGetSession h])
    /\ (core = [] \/ exists a, core = injections a ++ [Middleware.EvNext])
    /\ (forall r, fst res = Middleware.Ok r -> r = None /\ core <> []).

Definition isNext (ev : Middleware.Event) : bool :=
  match ev with Middleware.EvNext => true | _ => false end.

(** One request presented again and again: the middleware is invoked once
    per clock, each time on the world the previous invocation left. *)
Fixpoint invokeAll {Req Ctx Resp : Type}
         (options : Middleware.AuthMiddlewareOptions Req Ctx Resp)
         (getSession : Middleware.Headers ->
                       Middleware.Outcome Middleware.BetterAuthSessionResponse)
         (next : Ctx -> Middleware.Outcome Ctx) (req : Req)
         (clocks : list Middleware.Clock) (w : Middleware.World Ctx)
  : list (Middleware.Outcome (option Resp)) * Middleware.World Ctx :=
  match clocks with
  | [] => ([], w)
  | clock :: rest =>
      let (r, w') := Middleware.middleware options getSession next clock req w in
      let (rs, w'') := invokeAll options getSession next req rest w' in
      (r :: rs, w'')
  end.

(** Each invocation reads the cache no later than one ttl [L] after the
    previous use of the entry, which was at [prev]. *)
Fixpoint withinTtl (prev L : Z) (clocks : list Middleware.Clock) : Prop :=
  match clocks with
  | [] => True
  | clock :: rest =>
      (Middleware.t_has clock <= Middleware.t_get clock)%Z
      /\ (Middleware.t_get clock - prev <= L)%Z
      /\ withinTtl (Middleware.t_get clock) L rest
  end.


Definition forbiddenResponse : Middleware.BetterAuthSessionResponse :=
  {| Middleware.data :=
       Some {| Middleware.data_user := Some sampleUser;
               Middleware.data_session := Some sampleSession |};
     Middleware.error :=
       Some {| Middleware.err_message := Some "no";
               Middleware.err_code := Some "INVALID_SESSION";
               Middleware.err_status := Some 403%Z |} |}.

(** Every entry of [c'] has the token and the pair of an entry of [c]. *)
Definition fromCache (c c' : SessionCache.t) : Prop :=
  forall e', In e' (LRUCache.entries c') ->
             exists e, In e (LRUCache.entries c)
                       /\ LRUCache.key e = LRUCache.key e'
                       /\ LRUCache.value e = LRUCache.value e'.

(** [sessionToken.slice(0, n)] and the token as the middleware logs it,
    [`${sessionToken.slice(0, 8)}...`]. *)
Fixpoint sliceTo (n : nat) (s : string) : string :=
  match n, s with
  | S n', String c s' => String c (sliceTo n' s')
  | _, _ => EmptyString
  end.

Definition maskedToken (sessionToken : string) : string :=
  (sliceTo 8 sessionToken ++ "...")%string.

(* ===================================================================== *)
(** * The token extractor                                                  *)
(* ===================================================================== *)

Unset Implicit Arguments.

Section RegExpFacts.
Import RegExp.

Lemma append_assoc (a b c : string) :
  ((a ++ b) ++ c = a ++ (b ++ c))%string.
Proof. induction a as [|x a IH]; simpl; [reflexivity | now rewrite IH]. Qed.

Lemma append_empty_r (a : string) : (a ++ "")%string = a.
Proof. induction a as [|x a IH]; simpl; [reflexivity | now rewrite IH]. Qed.

Lemma matchAtoms_app (p q : list atom) (s : string) :
  matchAtoms (p ++ q) s =
  match matchAtoms p s with
  | Some rest => matchAtoms q rest
  | None => None
  end.
Proof.
  revert s; induction p as [|a p IH]; intro s; simpl.
  - reflexivity.
  - destruct s as [|c s].
    + destruct q; reflexivity.
    + destruct (atomMatches a c); [apply IH | reflexivity].
Qed.

(** A successful match consumes a prefix that the atoms accept. *)
Lemma matchAtoms_split (p : list atom) (s rest : string) :
  matchAtoms p s = Some rest ->
  exists m, s = (m ++ rest)%string /\ matchAtoms p m = Some EmptyString.
Proof.
  revert s; induction p as [|a p IH]; intros s H; simpl in H.
  - inversion H; subst. exists EmptyString. split; reflexivity.
  - destruct s as [|c s]; [discriminate|].
    destruct (atomMatches a c) eqn:E; [|discriminate].
    destruct (IH _ H) as [m [-> Hm]].
    exists (String c m). split; [reflexivity|].
    simpl. now rewrite E.
Qed.

Lemma matchAtoms_extend (p : list atom) (m rest : string) :
  matchAtoms p m = Some EmptyString ->
  matchAtoms p (m ++ rest) = Some rest.
Proof.
  revert m; induction p as [|a p IH]; intros m H; simpl in H.
  - inversion H; subst. destruct rest; reflexivity.
  - destruct m as [|c m]; [discriminate|].
    destruct (atomMatches a c) eqn:E; [|discriminate].
    simpl. rewrite E. now apply IH.
Qed.

Lemma takeValue_semicolonFree (s : string) : semicolonFree (takeValue s) = true.
Proof.
  induction s as [|c s IH]; simpl; [reflexivity|].
  destruct (Ascii.eqb c ";") eqn:E; simpl; [reflexivity|].
  now rewrite E, IH.
Qed.

(** The capture is a prefix, and what follows it ends a value. *)
Lemma takeValue_prefix (s : string) :
  exists post, s = (takeValue s ++ post)%string /\ endsValue post = true.
Proof.
  induction s as [|c s [post [IH1 IH2]]]; simpl.
  - exists EmptyString. split; reflexivity.
  - destruct (Ascii.eqb c ";") eqn:E.
    + exists (String c s). split; [reflexivity | exact E].
    + exists post. split; [simpl; now rewrite <- IH1 | exact IH2].
Qed.

(** Greedy means longest: a run without [;] that is followed by the end
    or by a [;] is the capture. *)
Lemma takeValue_unique (v post : string) :
  semicolonFree v = true -> endsValue post = true ->
  takeValue (v ++ post) = v.
Proof.
  intros Hv Hp. induction v as [|c v IH]; simpl in *.
  - destruct post as [|d post]; simpl in *; [reflexivity|].
    now rewrite Hp.
  - apply andb_true_iff in Hv. destruct Hv as [Hc Hv].
    apply negb_true_iff in Hc. rewrite Hc. now rewrite IH.
Qed.

Lemma matchHere_nonempty (p : list atom) (s v : string) :
  matchHere p s = Some v -> v <> EmptyString.
Proof.
  unfold matchHere. destruct (matchAtoms _ s); [|discriminate].
  destruct (takeValue s0); [discriminate|].
  intro H; inversion H; discriminate.
Qed.

(** One attempt succeeds exactly on [m=v post] with [m] accepted by the
    name, [v] non-empty without [;] and [post] ending the value. *)
Lemma matchHere_spec (p : list atom) (s v : string) :
  matchHere p s = Some v <->
  exists m post,
    s = (m ++ "=" ++ v ++ post)%string
    /\ matchAtoms p m = Some EmptyString
    /\ v <> EmptyString /\ semicolonFree v = true /\ endsValue post = true.
Proof.
  split.
  - intro H. pose proof (matchHere_nonempty _ _ _ H) as Hne.
    unfold matchHere in H. rewrite matchAtoms_app in H.
    destruct (matchAtoms p s) as [r|] eqn:Hp; [|discriminate].
    destruct (matchAtoms_split _ _ _ Hp) as [m [-> Hm]].
    destruct r as [|c r]; cbn [matchAtoms atomMatches] in H; [discriminate|].
    destruct (Ascii.eqb "=" c) eqn:Ec; [|discriminate].
    apply Ascii.eqb_eq in Ec; subst c.
    assert (Hv : takeValue r = v).
    { destruct (takeValue r); [discriminate | now inversion H]. }
    destruct (takeValue_prefix r) as [post [Hr Hpost]].
    exists m, post. rewrite Hv in Hr. subst r.
    repeat split; auto.
    rewrite <- Hv. apply takeValue_semicolonFree.
  - intros [m [post [-> [Hm [Hne [Hv Hpost]]]]]].
    unfold matchHere. rewrite matchAtoms_app.
    rewrite (matchAtoms_extend _ _ _ Hm).
    cbn [matchAtoms atomMatches append]. rewrite Ascii.eqb_refl.
    rewrite (takeValue_unique _ _ Hv Hpost).
    destruct v; [contradiction | reflexivity].
Qed.

(** [exec] tries every start position. *)
Lemma exec_sound (p : list atom) (s v : string) :
  exec p s = Some v ->
  exists pre rest, s = (pre ++ rest)%string /\ matchHere p rest = Some v.
Proof.
  induction s as [|c s IH]; simpl; intro H.
  - destruct (matchHere p "") eqn:E; [|discriminate].
    inversion H; subst. exists EmptyString, EmptyString. now split.
  - destruct (matchHere p (String c s)) eqn:E.
    + inversion H; subst. exists EmptyString, (String c s). now split.
    + destruct (IH H) as [pre [rest [-> Hr]]].
      exists (String c pre), rest. now split.
Qed.

Lemma exec_none (p : list atom) (s : string) :
  exec p s = None <->
  forall pre rest, s = (pre ++ rest)%string -> matchHere p rest = None.
Proof.
  split.
  - induction s as [|c s IH]; simpl; intros H pre rest Hs.
    + destruct pre; [|discriminate]. simpl in Hs; subst rest.
      destruct (matchHere p ""); [discriminate | reflexivity].
    + destruct (matchHere p (String c s)) eqn:E; [discriminate|].
      destruct pre as [|d pre]; simpl in Hs.
      * now subst rest.
      * inversion Hs; subst. now apply (IH H pre rest).
  - induction s as [|c s IH]; simpl; intro H.
    + now rewrite (H EmptyString EmptyString eq_refl).
    + rewrite (H EmptyString (String c s) eq_refl).
      apply IH. intros pre rest ->. now apply (H (String c pre) rest).
Qed.

Lemma exec_occurs (p : list atom) (s v : string) :
  exec p s = Some v -> occursWith p s v.
Proof.
  intro H. destruct (exec_sound _ _ _ H) as [pre [rest [-> Hr]]].
  apply matchHere_spec in Hr.
  destruct Hr as [m [post [-> Hrest]]].
  exists pre, m, post. split; [reflexivity | exact Hrest].
Qed.

Lemma occurs_exec (p : list atom) (s v : string) :
  occursWith p s v -> exists v', exec p s = Some v'.
Proof.
  intros [pre [m [post [-> H]]]].
  destruct (exec p (pre ++ m ++ "=" ++ v ++ post)) as [v'|] eqn:E.
  - now exists v'.
  - exfalso. rewrite exec_none in E.
    specialize (E pre _ eq_refl).
    assert (matchHere p (m ++ "=" ++ v ++ post) = Some v) as Hm.
    { apply matchHere_spec. now exists m, post. }
    congruence.
Qed.

Lemma exec_nonempty (p : list atom) (s v : string) :
  exec p s = Some v -> truthy v = true.
Proof.
  intro H. destruct (exec_sound _ _ _ H) as [pre [rest [_ Hr]]].
  apply matchHere_nonempty in Hr. destruct v; [contradiction | reflexivity].
Qed.

End RegExpFacts.

(** The cases of the repository's tests. *)
Example extractSessionToken_tests :
  extractSessionToken "better-auth.session_token=abc123; other_cookie=value"
  = Some "abc123"
  /\ extractSessionToken "session_token=xyz789; other_cookie=value"
     = Some "xyz789"
  /\ extractSessionToken "session=def456; other_cookie=value" = Some "def456"
  /\ extractSessionToken "better-auth.session_token=first; session_token=second"
     = Some "first"
  /\ extractSessionToken "session_token=second; better-auth.session_token=first"
     = Some "first"
  /\ extractSessionToken "better-auth.session_token=abc-123_def.xyz"
     = Some "abc-123_def.xyz"
  /\ extractSessionToken "better-auth.session_token=abc123;" = Some "abc123"
  /\ extractSessionToken "" = None
  /\ extractSessionToken "other_cookie=value; another=test" = None
  /\ extractSessionToken "session_token=; empty_token=" = None.
Proof. repeat split; reflexivity. Qed.

Lemma firstMatch_cons (mk : string -> list RegExp.atom)
      (n : string) (rest : list string) (s : string) :
  firstMatch mk (n :: rest) s =
  match RegExp.exec (mk n) s with
  | Some v => Some v
  | None => firstMatch mk rest s
  end.
Proof.
  simpl. destruct (RegExp.exec (mk n) s) as [v|] eqn:E; [|reflexivity].
  now rewrite (exec_nonempty _ _ _ E).
Qed.

Lemma exec_empty (p : list RegExp.atom) : RegExp.exec p "" = None.
Proof.
  simpl. unfold RegExp.matchHere. rewrite matchAtoms_app.
  destruct (RegExp.matchAtoms p "") as [r|] eqn:E; [|reflexivity].
  destruct (matchAtoms_split _ _ _ E) as [m [Hs _]].
  destruct m; [|discriminate]. simpl in Hs. subst r. reflexivity.
Qed.

(** The priority order: the namespaced pattern first, then
    [session_token], then [session]; the first that matches anywhere in
    the header decides, wherever the others stand. *)
Lemma extract_priority (s : string) :
  extractSessionToken s =
  match RegExp.exec (RegExp.compile "better-auth.session_token") s with
  | Some v => Some v
  | None =>
      match RegExp.exec (RegExp.compile "session_token") s with
      | Some v => Some v
      | None => RegExp.exec (RegExp.compile "session") s
      end
  end.
Proof.
  unfold extractSessionToken, sessionCookieNames.
  destruct s as [|c s].
  - simpl truthy. cbv iota. now rewrite !exec_empty.
  - simpl truthy. cbv iota. rewrite !firstMatch_cons.
    simpl firstMatch.
    now destruct (RegExp.exec (RegExp.compile "session") (String c s)).
Qed.

Lemma extractSpec_priority (s : string) :
  extractTokenSpec s =
  match RegExp.exec (RegExp.literal "better-auth.session_token") s with
  | Some v => Some v
  | None =>
      match RegExp.exec (RegExp.literal "session_token") s with
      | Some v => Some v
      | None => RegExp.exec (RegExp.literal "session") s
      end
  end.
Proof.
  unfold extractTokenSpec, sessionCookieNames.
  destruct s as [|c s].
  - simpl truthy. cbv iota. now rewrite !exec_empty.
  - simpl truthy. cbv iota. rewrite !firstMatch_cons.
    simpl firstMatch.
    now destruct (RegExp.exec (RegExp.literal "session") (String c s)).
Qed.

(** Whenever the namespaced pattern matches, its capture is the result,
    whether a generic token stands before or after it. *)
Lemma extract_namespaced_wins (s v : string) :
  RegExp.exec (RegExp.compile "better-auth.session_token") s = Some v ->
  extractSessionToken s = Some v.
Proof. intro H. now rewrite extract_priority, H. Qed.

Lemma extract_generic_only (s x : string) :
  RegExp.exec (RegExp.compile "better-auth.session_token") s = None ->
  RegExp.exec (RegExp.compile "session_token") s = Some x ->
  extractSessionToken s = Some x.
Proof. intros H1 H2. now rewrite extract_priority, H1, H2. Qed.

(** The dot of the namespaced name is the only place where the pattern and
    the literal name differ: where they agree on a header, the source and
    the specification extract the same token. *)
Lemma extract_matches_spec (s : string) :
  RegExp.exec (RegExp.compile "better-auth.session_token") s
  = RegExp.exec (RegExp.literal "better-auth.session_token") s ->
  extractSessionToken s = extractTokenSpec s.
Proof.
  intro H. rewrite extract_priority, extractSpec_priority, H. reflexivity.
Qed.

(** C4 (the source against the claim).  The claim reads the candidates as
    cookie names.  In the header below the name [better-auth.session_token]
    occurs nowhere and [session_token=good] does, so the claim gives
    [good].  The source pastes the name into a regular expression without
    escaping it; the dot then matches the [X] of another cookie, the
    namespaced pattern matches, and the source returns [evil]. *)
Theorem C4_unescaped_dot_matches_other_cookie :
  let header := "session_token=good; better-authXsession_token=evil" in
  extractSessionToken header = Some "evil"
  /\ RegExp.exec (RegExp.literal "better-auth.session_token") header = None
  /\ RegExp.exec (RegExp.literal "session_token") header = Some "good"
  /\ extractTokenSpec header = Some "good".
Proof. cbv zeta. repeat split; reflexivity. Qed.

Lemma extract_occurs (s v : string) :
  extractSessionToken s = Some v ->
  exists n, In n sessionCookieNames /\ occursWith (RegExp.compile n) s v.
Proof.
  rewrite extract_priority. unfold sessionCookieNames.
  destruct (RegExp.exec (RegExp.compile "better-auth.session_token") s) eqn:E1.
  - intro H; inversion H; subst.
    exists "better-auth.session_token". split; [simpl; auto | now apply exec_occurs].
  - destruct (RegExp.exec (RegExp.compile "session_token") s) eqn:E2.
    + intro H; inversion H; subst.
      exists "session_token". split; [simpl; auto | now apply exec_occurs].
    + intro H. exists "session". split; [simpl; auto | now apply exec_occurs].
Qed.

Lemma extract_none (s : string) :
  (forall n v, In n sessionCookieNames -> ~ occursWith (RegExp.compile n) s v) ->
  extractSessionToken s = None.
Proof.
  intro H. destruct (extractSessionToken s) as [v|] eqn:E; [|reflexivity].
  destruct (extract_occurs _ _ E) as [n [Hn Ho]].
  exfalso. exact (H n v Hn Ho).
Qed.




(* ===================================================================== *)
(** * The error classifier                                                 *)
(* ===================================================================== *)

Section ClassifierFacts.
Import Classifier.

Lemma createErrorResponse_classify (Ctx Resp : Type) (error : Thrown)
      (ctx : Ctx) (createResponse : Ctx -> Body -> Z -> Resp) :
  createErrorResponse error ctx createResponse
  = createResponse ctx (fst (classify error)) (snd (classify error)).
Proof. reflexivity. Qed.

(** Every message of the table is a non-empty string, so [||] never
    replaces one. *)
Lemma getErrorMessage_known (c : string) (m : Messages) (lang : Lang) :
  lookup c ERROR_MESSAGES = Some m -> getErrorMessage c lang = pick lang m.
Proof.
  unfold getErrorMessage. intro H. rewrite H.
  unfold ERROR_MESSAGES in H. simpl in H.
  repeat match type of H with
         | (if ?b then _ else _) = _ =>
             destruct b; [inversion H; subst; now destruct lang|]
         end.
  discriminate.
Qed.

Lemma getErrorMessage_unknown (c : string) (lang : Lang) :
  lookup c ERROR_MESSAGES = None -> getErrorMessage c lang = "Unknown error".
Proof. unfold getErrorMessage. now intros ->. Qed.

Example getErrorMessage_tests :
  getErrorMessage "USER_ALREADY_EXISTS" en = "User already registered"
  /\ getErrorMessage "INVALID_CREDENTIALS" en = "Invalid email or password"
  /\ getErrorMessage "UNAUTHORIZED" en = "Unauthorized access"
  /\ getErrorMessage "SESSION_EXPIRED" en = "Session has expired"
  /\ getErrorMessage "INVALID_SESSION" en = "Invalid or missing session"
  /\ getErrorMessage "SESSION_EXPIRED" es = "La sesión ha expirado"
  /\ getErrorMessage "UNKNOWN_ERROR" en = "Unknown error"
  /\ getErrorMessage "" en = "Unknown error".
Proof. repeat split; reflexivity. Qed.

Example classify_tests :
  classify (TObject (Some "UNAUTHORIZED") (Some "Custom error message") (Some 403%Z))
  = ({| success := false; message := "Unauthorized access";
        code := "UNAUTHORIZED" |}, 403%Z)
  /\ classify (newError "Regular error message")
     = ({| success := false; message := "Regular error message";
           code := "UNAUTHORIZED" |}, 401%Z)
  /\ classify (TObject None None None)
     = ({| success := false; message := "Invalid or missing session";
           code := "UNAUTHORIZED" |}, 401%Z)
  /\ classify TNull = classify (TObject None None None)
  /\ classify (TString "String error message") = classify TNull.
Proof. repeat split; reflexivity. Qed.

(** C2 (as amended).  For an error whose [code] is a non-empty string:
    the result keeps that code; the message is the English entry of the
    table when the code is in it and "Unknown error" when it is not; the
    status is 401 when the error carries none. *)
Theorem C2_classify_error_with_code :
  forall (error : Thrown) (c : string),
    codeOf error = Some c -> c <> "" ->
    code (fst (classify error)) = c
    /\ (forall m, lookup c ERROR_MESSAGES = Some m ->
                  message (fst (classify error)) = msg_en m)
    /\ (lookup c ERROR_MESSAGES = None ->
        message (fst (classify error)) = "Unknown error")
    /\ (statusOf error = None -> snd (classify error) = 401%Z).
Proof.
  intros error c Hc Hne.
  assert (Ht : truthy c = true) by (destruct c; [contradiction | reflexivity]).
  unfold classify, createErrorResponse. simpl.
  unfold isTruthy, orString. rewrite Hc, Ht.
  repeat split.
  - intros m Hm. now rewrite (getErrorMessage_known _ _ en Hm).
  - intro Hm. now apply getErrorMessage_unknown.
  - now intros ->.
Qed.

(** C2 at the error of the specification's scenario. *)
Lemma C2_witness :
  let error := TObject (Some "SESSION_EXPIRED") (Some "...") (Some 401%Z) in
  code (fst (classify error)) = "SESSION_EXPIRED"
  /\ message (fst (classify error)) = "Session has expired".
Proof.
  cbv zeta.
  destruct (C2_classify_error_with_code
              (TObject (Some "SESSION_EXPIRED") (Some "...") (Some 401%Z))
              "SESSION_EXPIRED" eq_refl) as [H1 [H2 _]].
  - discriminate.
  - split; [exact H1|].
    exact (H2 {| msg_en := "Session has expired";
                 msg_es := "La sesión ha expirado" |} eq_refl).
Defined.

(** C2 (the claim as stated fails).  An error whose [code] is the empty
    string carries a code that is not in the table, yet the message is not
    "Unknown error" and the code is not kept: the empty string is falsy, so
    the error is classified as one without a code. *)
Lemma C2_counterexample :
  let error := TObject (Some "") (Some "Custom") None in
  codeOf error = Some ""
  /\ lookup "" ERROR_MESSAGES = None
  /\ classify error
     = ({| success := false; message := "Custom"; code := "UNAUTHORIZED" |},
        401%Z).
Proof. cbv zeta. repeat split; reflexivity. Qed.

End ClassifierFacts.

(* ===================================================================== *)
(** * The session cache                                                    *)
(* ===================================================================== *)

Section CacheFacts.
Import LRUCache.

Local Open Scope Z_scope.

Lemma lookupEntry_key (c : SessionCache.t) (k : string)
      (e : Entry AuthContext) :
  lookupEntry k c = Some e -> key e = k.
Proof.
  unfold lookupEntry. intro H. apply find_some in H.
  destruct H as [_ H]. now apply String.eqb_eq in H.
Qed.

Lemma find_without (k : string) (es : list (Entry AuthContext)) :
  find (isKey k) (without k es) = None.
Proof.
  induction es as [|e es IH]; simpl; [reflexivity|].
  destruct (isKey k e) eqn:E; simpl; [exact IH|].
  now rewrite E.
Qed.

Lemma find_last (k : string) (es : list (Entry AuthContext))
      (e : Entry AuthContext) :
  find (isKey k) es = None -> key e = k ->
  find (isKey k) (es ++ [e]) = Some e.
Proof.
  intros Hes He. induction es as [|x es IH]; simpl in *.
  - unfold isKey. rewrite He, String.eqb_refl. reflexivity.
  - destruct (isKey k x); [discriminate | now apply IH].
Qed.

Lemma lookupEntry_absent (c : SessionCache.t) (k : string) :
  ~ In k (keys c) -> lookupEntry k c = None.
Proof.
  unfold lookupEntry, keys. induction (entries c) as [|e es IH]; simpl; intro H.
  - reflexivity.
  - unfold isKey at 1. destruct (String.eqb (key e) k) eqn:E.
    + apply String.eqb_eq in E. exfalso. apply H. now left.
    + apply IH. intro Hin. apply H. now right.
Qed.

Lemma keys_without (k : string) (es : list (Entry AuthContext)) :
  map (@key AuthContext) (without k es) = others k (map (@key AuthContext) es).
Proof.
  unfold without, others, isKey.
  induction es as [|e es IH]; simpl; [reflexivity|].
  destruct (String.eqb (key e) k); simpl; now rewrite IH.
Qed.

(** A [get] that returns a value found the entry live, and made it the
    most recent. *)
Lemma keys_get_hit (c c' : SessionCache.t) (now : Z) (k : string)
      (v : AuthContext) :
  allowStale (options c) = false ->
  SessionCache.get now k c = (Some v, c') ->
  SessionCache.keys c' = (others k (SessionCache.keys c) ++ [k])%list
  /\ options c' = options c.
Proof.
  unfold SessionCache.get, SessionCache.keys, get, keys. intros Hs H.
  destruct (lookupEntry k c) as [e|] eqn:E; [|discriminate].
  pose proof (lookupEntry_key _ _ _ E) as Hk.
  destruct (isStale now e).
  - rewrite Hs in H. discriminate.
  - inversion H; subst. simpl. split; [|reflexivity].
    rewrite map_app, keys_without. reflexivity.
Qed.

(** A new key: the least recent entry leaves when the cache is full. *)
Lemma keys_set_absent (c : SessionCache.t) (now : Z) (k : string)
      (v : AuthContext) :
  lookupEntry k c = None ->
  SessionCache.keys (SessionCache.set now k v c)
  = ((if Nat.eqb (List.length (SessionCache.keys c)) (max (options c))
      then tl (SessionCache.keys c) else SessionCache.keys c) ++ [k])%list.
Proof.
  unfold SessionCache.set, SessionCache.keys, set, keys, evict. intros ->.
  simpl. rewrite map_app. simpl. f_equal.
  rewrite length_map.
  destruct (entries c) as [|e es] eqn:E; simpl.
  - now destruct (max (options c)).
  - destruct (max (options c)) as [|m']; [reflexivity|].
    now destruct (Nat.eqb (List.length es) m').
Qed.

Lemma options_set (c : SessionCache.t) (now : Z) (k : string)
      (v : AuthContext) :
  options (SessionCache.set now k v c) = options c.
Proof.
  unfold SessionCache.set, set. now destruct (lookupEntry k c).
Qed.

Lemma options_insertAll (items : list Insertion) (c : SessionCache.t) :
  options (insertAll items c) = options c.
Proof.
  revert c. induction items as [|i items IH]; intro c; simpl; [reflexivity|].
  unfold insertAll in IH. rewrite IH. apply options_set.
Qed.

(** Distinct tokens that fit are all kept, in insertion order. *)
Lemma keys_insertAll (items : list Insertion) (c : SessionCache.t) :
  NoDup (SessionCache.keys c ++ map token items)%list ->
  (List.length (SessionCache.keys c) + List.length items <= max (options c))%nat ->
  SessionCache.keys (insertAll items c)
  = (SessionCache.keys c ++ map token items)%list.
Proof.
  revert c. induction items as [|i items IH]; intros c Hnd Hlen; simpl.
  - now rewrite app_nil_r.
  - simpl in Hnd, Hlen.
    assert (Hnot : ~ In (token i) (SessionCache.keys c)).
    { intro Hin. apply NoDup_remove_2 in Hnd. apply Hnd.
      apply in_or_app. now left. }
    assert (Hk : SessionCache.keys
                   (SessionCache.set (at_time i) (token i) (resolved i) c)
                 = (SessionCache.keys c ++ [token i])%list).
    { rewrite keys_set_absent by now apply lookupEntry_absent.
      destruct (Nat.eqb (List.length (SessionCache.keys c)) (max (options c)))
               eqn:E; [|reflexivity].
      apply Nat.eqb_eq in E. lia. }
    unfold insertAll in *. simpl.
    rewrite IH.
    + rewrite Hk, <- app_assoc. reflexivity.
    + rewrite Hk, <- app_assoc. exact Hnd.
    + rewrite Hk, options_set, length_app. simpl. lia.
Qed.

End CacheFacts.

Section CacheProperties.
Import LRUCache.

Local Open Scope Z_scope.

(** The cases of the repository's tests: a cache of two entries, and an
    entry of 100 ms read after 150 ms. *)
Example sessionCache_tests :
  let v := sampleContext in
  let two := SessionCache.set 2 "key2" v
               (SessionCache.set 1 "key1" v (sessionCacheWith 2 300 [])) in
  let short := SessionCache.set 5 "test-key" v
                 (create AuthContext
                    {| max := 100%nat; ttl := 100; allowStale := false;
                       updateAgeOnGet := true |}) in
  SessionCache.size two = 2%nat
  /\ SessionCache.keys (SessionCache.set 3 "key3" v two) = ["key2"; "key3"]%list
  /\ SessionCache.keys
       (SessionCache.set 4 "key3" v (snd (SessionCache.get 3 "key1" two)))
     = ["key1"; "key3"]%list
  /\ SessionCache.has 5 "test-key" short = true
  /\ SessionCache.has 155 "test-key" short = false
  /\ fst (SessionCache.get 155 "test-key" short) = None
  /\ SessionCache.size (SessionCache.clear two) = 0%nat
  /\ SessionCache.size (SessionCache.delete "key1" two) = 1%nat.
Proof. cbv zeta. repeat split; reflexivity. Qed.

Lemma set_stamps_entry (c : SessionCache.t) (now : Z) (k : string)
      (v : AuthContext) :
  lookupEntry k (SessionCache.set now k v c)
  = Some {| key := k; value := v;
            start := stamp now (ttl (options c));
            entryTtl := ttl (options c) |}.
Proof.
  unfold SessionCache.set, set, lookupEntry.
  destruct (find (isKey k) (entries c)) as [e|] eqn:E; simpl.
  - apply find_last; [apply find_without | reflexivity].
  - apply find_last; [|reflexivity].
    unfold evict. destruct (entries c) as [|x es]; [reflexivity|].
    destruct (Nat.eqb (List.length (x :: es)) (max (options c))); [|exact E].
    simpl in E. now destruct (isKey k x).
Qed.






(** With [updateAgeOnGet] off the same reads leave the stamp alone: the
    option that [SessionCache] turns on is what moves the expiry. *)
Lemma get_keeps_stamp_without_updateAgeOnGet :
  let c0 := create AuthContext
              {| max := 100%nat; ttl := 300000; allowStale := false;
                 updateAgeOnGet := false |} in
  let c := set 1000 "tok" sampleContext c0 in
  fst (get 200000 "tok" c) = Some sampleContext
  /\ has 400000 "tok" (snd (get 200000 "tok" c)) = false.
Proof. cbv zeta. split; reflexivity. Qed.

Lemma others_length (k : string) (ks : list string) :
  NoDup ks -> In k ks -> S (List.length (others k ks)) = List.length ks.
Proof.
  unfold others. induction ks as [|x ks IH]; intros Hnd Hin; [inversion Hin|].
  inversion Hnd as [|? ? Hx Hnd']; subst. simpl.
  destruct (String.eqb x k) eqn:E; simpl.
  - apply String.eqb_eq in E. subst x. f_equal.
    clear IH Hin Hnd. induction ks as [|y ks IH]; [reflexivity|].
    simpl. destruct (String.eqb y k) eqn:E.
    + apply String.eqb_eq in E. subst y. exfalso. apply Hx. now left.
    + simpl. f_equal. apply IH.
      * intro H. apply Hx. now right.
      * now inversion Hnd'.
  - f_equal. apply IH; [exact Hnd'|].
    destruct Hin as [->|Hin]; [|exact Hin].
    now rewrite String.eqb_refl in E.
Qed.

Lemma others_subset (k x : string) (ks : list string) :
  In x (others k ks) -> In x ks.
Proof. unfold others. intro H. now apply filter_In in H. Qed.

Lemma get_hit_key (c c' : SessionCache.t) (now : Z) (k : string)
      (v : AuthContext) :
  SessionCache.get now k c = (Some v, c') -> In k (SessionCache.keys c).
Proof.
  unfold SessionCache.get, SessionCache.keys, get, keys, lookupEntry.
  destruct (find (isKey k) (entries c)) as [e|] eqn:E; [|discriminate].
  intros _. apply find_some in E. destruct E as [Hin Hk].
  apply String.eqb_eq in Hk. rewrite <- Hk. now apply in_map.
Qed.

End CacheProperties.

Section Eviction.
Import LRUCache.

Lemma keys_filled (N : nat) (ttl : Z) (items : list Insertion) :
  NoDup (map token items) -> (List.length items <= N)%nat ->
  SessionCache.keys (insertAll items (SessionCache.new N ttl))
  = map token items.
Proof.
  intros Hnd Hlen.
  rewrite keys_insertAll; [reflexivity | exact Hnd | simpl; lia].
Qed.

(** C5 (as amended).  A cache of capacity [N] receives [N] distinct tokens
    and then one more.
    - Without a read in between, the keys left are the ones inserted
      second to last, in order, and the new one: exactly the first
      inserted, the least recently touched, is gone.
    - When a [get] returned the entry of [k] before the last insertion and
      [N >= 2], [k] stays: the entry that leaves is the least recent of
      the others. *)
Theorem C5_overflow_evicts_least_recently_touched :
  forall (N : nat) (ttl : Z) (items : list Insertion) (extra : Insertion),
    List.length items = N ->
    NoDup (map token items ++ [token extra]) ->
    SessionCache.keys
      (SessionCache.set (at_time extra) (token extra) (resolved extra)
         (insertAll items (SessionCache.new N ttl)))
    = tl (map token items) ++ [token extra]
    /\ (forall (k : string) (now : Z) (v : AuthContext) (c' : SessionCache.t),
           (2 <= N)%nat ->
           SessionCache.get now k (insertAll items (SessionCache.new N ttl))
           = (Some v, c') ->
           SessionCache.keys
             (SessionCache.set (at_time extra) (token extra) (resolved extra) c')
           = tl (others k (map token items)) ++ [k; token extra]).
Proof.
  intros N ttl0 items extra Hlen Hnd.
  assert (Hnd' : NoDup (map token items)) by now apply NoDup_app_remove_r in Hnd.
  assert (Hextra : ~ In (token extra) (map token items)).
  { intro Hin. apply NoDup_remove_2 in Hnd. apply Hnd.
    rewrite app_nil_r. exact Hin. }
  pose proof (keys_filled N ttl0 items Hnd' (Nat.eq_le_incl _ _ Hlen)) as Hkeys.
  pose proof (options_insertAll items (SessionCache.new N ttl0)) as Hopt.
  split.
  - rewrite keys_set_absent
      by (apply lookupEntry_absent; unfold SessionCache.keys in Hkeys;
          now rewrite Hkeys).
    rewrite Hkeys, Hopt, length_map, Hlen. simpl max.
    now rewrite Nat.eqb_refl.
  - intros k now v c' HN2 Hget.
    pose proof (get_hit_key _ _ _ _ _ Hget) as Hin. rewrite Hkeys in Hin.
    destruct (keys_get_hit _ _ _ _ _
                (eq_trans (f_equal (@allowStale) Hopt) eq_refl) Hget)
      as [Hk' Hopt'].
    rewrite Hkeys in Hk'.
    pose proof (others_length k _ Hnd' Hin) as Hlen'.
    rewrite length_map, Hlen in Hlen'.
    assert (Hne : k <> token extra) by (intro; subst; contradiction).
    rewrite keys_set_absent.
    + rewrite Hk', Hopt', Hopt, length_app. simpl max. simpl List.length.
      replace (List.length (others k (map token items)) + 1)%nat with N by lia.
      rewrite Nat.eqb_refl.
      destruct (others k (map token items)) as [|x xs]; simpl in *; [lia|].
      now rewrite <- app_assoc.
    + apply lookupEntry_absent. unfold SessionCache.keys in Hk'. rewrite Hk'.
      intro H. apply in_app_or in H. destruct H as [H|[H|[]]].
      * apply Hextra. now apply others_subset in H.
      * now apply Hne.
Qed.

(** C5 on the cache of the repository's tests: capacity 2, [key1] and
    [key2] inserted, then [key3]. *)
Lemma C5_witness :
  let v := sampleContext in
  let items := [ {| at_time := 1; token := "key1"; resolved := v |};
                 {| at_time := 2; token := "key2"; resolved := v |} ] in
  let extra := {| at_time := 4; token := "key3"; resolved := v |} in
  SessionCache.keys
    (SessionCache.set 4 "key3" v (insertAll items (SessionCache.new 2 300)))
  = ["key2"; "key3"]
  /\ SessionCache.keys
       (SessionCache.set 4 "key3" v
          (snd (SessionCache.get 3 "key1"
                  (insertAll items (SessionCache.new 2 300)))))
     = ["key1"; "key3"].
Proof.
  cbv zeta.
  assert (Hnd : NoDup (map token
                  [ {| at_time := 1; token := "key1"; resolved := sampleContext |};
                    {| at_time := 2; token := "key2"; resolved := sampleContext |} ]
                ++ [token {| at_time := 4; token := "key3";
                             resolved := sampleContext |}])).
  { simpl. repeat constructor; simpl; intuition discriminate. }
  destruct (C5_overflow_evicts_least_recently_touched 2 300
              [ {| at_time := 1; token := "key1"; resolved := sampleContext |};
                {| at_time := 2; token := "key2"; resolved := sampleContext |} ]
              {| at_time := 4; token := "key3"; resolved := sampleContext |}
              eq_refl Hnd) as [HA HB].
  split; [exact HA|].
  exact (HB "key1" 3%Z sampleContext _ (le_n 2) eq_refl).
Defined.

(** C5 (the claim as stated fails).  In a cache of capacity 1 the entry of
    [a] is read, then [b] is inserted: [a] is the only entry, so the read
    does not keep it from being evicted. *)
Lemma C5_counterexample :
  let c := SessionCache.set 1 "a" sampleContext (SessionCache.new 1 300) in
  fst (SessionCache.get 2 "a" c) = Some sampleContext
  /\ SessionCache.keys
       (SessionCache.set 3 "b" sampleContext (snd (SessionCache.get 2 "a" c)))
     = ["b"]
  /\ SessionCache.has 4 "a"
       (SessionCache.set 3 "b" sampleContext (snd (SessionCache.get 2 "a" c)))
     = false.
Proof. cbv zeta. repeat split; reflexivity. Qed.

End Eviction.

(* ===================================================================== *)
(** * The middleware                                                       *)
(* ===================================================================== *)

Section MiddlewareFacts.
Import Classifier Middleware.

Variables Req Ctx Resp : Type.
Variable options : AuthMiddlewareOptions Req Ctx Resp.
Variable getSession : Headers -> Outcome BetterAuthSessionResponse.
Variable next : Ctx -> Outcome Ctx.
Variable clock : Clock.
Variable req : Req.

Let fw := framework options.
Let try := attempt options getSession next clock req.
Let remote := resolveRemotely options getSession next clock.

Lemma extract_truthy (s tok : string) :
  extractSessionToken s = Some tok -> truthy tok = true.
Proof.
  intro H. destruct (extract_occurs _ _ H) as [n [_ [pre [m [post [_ [_ [Hne _]]]]]]]].
  destruct tok; [contradiction | reflexivity].
Qed.

Lemma attempt_headers_throw (w : World Ctx) (e : Thrown) :
  getHeaders fw req = Throw e -> try w = (Throw e, w).
Proof.
  intro H. unfold try, attempt, bind, lift. fold fw. now rewrite H.
Qed.

Lemma attempt_no_token (w : World Ctx) (h : Headers) :
  getHeaders fw req = Ok h -> tokenOf h = None ->
  try w = (Throw (newError "No session token found"), w).
Proof.
  intros Hh Ht. unfold try, attempt, bind, lift. fold fw. rewrite Hh.
  unfold tokenOf in Ht. now rewrite Ht.
Qed.

(** With a token, the body of the [try] is the cache check followed by
    the hit branch or by the remote resolution. *)
Lemma attempt_token (w : World Ctx) (h : Headers) (tok : string) :
  getHeaders fw req = Ok h -> tokenOf h = Some tok ->
  try w =
  bind (cacheHas clock tok)
       (fun hit =>
          if hit
          then bind (cacheGet clock tok)
                    (fun cached =>
                       match cached with
                       | Some cached => proceed options next cached
                       | None => remote h tok
                       end)
          else remote h tok) w.
Proof.
  intros Hh Ht. unfold try, attempt. unfold bind at 1. unfold lift.
  fold fw. rewrite Hh. unfold tokenOf in Ht. rewrite Ht.
  now rewrite (extract_truthy _ _ Ht).
Qed.

(** A miss, or no cache at all: the remote resolution runs on the world as
    it is. *)
Lemma attempt_miss (w : World Ctx) (h : Headers) (tok : string) :
  getHeaders fw req = Ok h -> tokenOf h = Some tok ->
  fst (cacheHas clock tok w) = Ok false ->
  try w = remote h tok w.
Proof.
  intros Hh Ht Hmiss. rewrite (attempt_token w h tok Hh Ht).
  unfold bind at 1.
  unfold cacheHas, bind, getCache, ret in *.
  destruct (sessionCache w) as [c|]; simpl in *.
  - inversion Hmiss as [Hb]. now rewrite Hb.
  - reflexivity.
Qed.

Lemma proceed_run (w : World Ctx) (a : AuthContext) :
  proceed options next a w =
  match next (inject fw (context w) a) with
  | Ok ctx' =>
      (Ok None,
       {| sessionCache := sessionCache w; context := ctx';
          events := (events w ++ [EvSetContext "user" (UserValue (user a))])
                      ++ [EvSetContext "session" (SessionValue (session a))]
                      ++ [EvNext] |})
  | Throw e =>
      (Throw e,
       {| sessionCache := sessionCache w;
          context := inject fw (context w) a;
          events := (events w ++ [EvSetContext "user" (UserValue (user a))])
                      ++ [EvSetContext "session" (SessionValue (session a))]
                      ++ [EvNext] |})
  end.
Proof.
  unfold proceed, frameworkSetContext, awaitNext, bind, getContext, emit,
    putContext, lift, ret, inject. simpl. fold fw.
  rewrite <- !app_assoc. simpl.
  destruct (next _); reflexivity.
Qed.

(** The four outcomes of the remote resolution. *)
Lemma remote_throws (w : World Ctx) (h : Headers) (tok : string) (e : Thrown) :
  getSession h = Throw e ->
  remote h tok w = (Throw e, withEvents w [EvGetSession h]).
Proof.
  intro H. unfold remote, resolveRemotely, awaitGetSession, bind, emit, lift.
  simpl. now rewrite H.
Qed.

Lemma remote_rejected (w : World Ctx) (h : Headers) (tok : string)
      (r : BetterAuthSessionResponse) (e : BetterAuthError) :
  getSession h = Ok r -> error r = Some e ->
  remote h tok w = (Throw (thrownOf e), withEvents w [EvGetSession h]).
Proof.
  intros H He. unfold remote, resolveRemotely, awaitGetSession, bind, emit, lift.
  simpl. now rewrite H, He.
Qed.

Lemma remote_malformed (w : World Ctx) (h : Headers) (tok : string)
      (r : BetterAuthSessionResponse) :
  getSession h = Ok r -> error r = None -> resolvedContext r = None ->
  remote h tok w
  = (Throw (newError "Invalid session response"), withEvents w [EvGetSession h]).
Proof.
  intros H He Hr. unfold remote, resolveRemotely, awaitGetSession, bind, emit, lift.
  simpl. rewrite H, He. unfold resolvedContext in Hr.
  destruct (data r) as [d|]; [|reflexivity].
  destruct (data_session d); [|reflexivity].
  destruct (data_user d); [discriminate | reflexivity].
Qed.

Lemma remote_resolved (w : World Ctx) (h : Headers) (tok : string)
      (r : BetterAuthSessionResponse) (a : AuthContext) :
  getSession h = Ok r -> error r = None -> resolvedContext r = Some a ->
  remote h tok w
  = proceed options next a
      {| sessionCache :=
           match sessionCache w with
           | Some c => Some (SessionCache.set (t_set clock) tok a c)
           | None => None
           end;
         context := context w;
         events := events w ++ [EvGetSession h] |}.
Proof.
  intros H He Hr. unfold remote, resolveRemotely, awaitGetSession.
  unfold bind at 1. unfold bind at 1. unfold emit, lift. simpl.
  rewrite H, He. unfold resolvedContext in Hr.
  destruct (data r) as [d|]; [|discriminate].
  destruct (data_session d) as [s|]; [|discriminate].
  destruct (data_user d) as [u|]; [|discriminate].
  inversion Hr; subst. simpl.
  unfold bind at 1. unfold cacheSet, bind, getCache, putCache, ret. simpl.
  destruct (sessionCache w); reflexivity.
Qed.

End MiddlewareFacts.

Section MiddlewareProperties.
Import Classifier Middleware.

Variables Req Ctx Resp : Type.
Variable options : AuthMiddlewareOptions Req Ctx Resp.
Variable getSession : Headers -> Outcome BetterAuthSessionResponse.
Variable next : Ctx -> Outcome Ctx.
Variable clock : Clock.
Variable req : Req.

Lemma middleware_unfold (w : World Ctx) :
  middleware options getSession next clock req w
  = match attempt options getSession next clock req w with
    | (Ok r, w') => (Ok r, w')
    | (Throw e, w') => recover options e w'
    end.
Proof. reflexivity. Qed.

Lemma recover_without_hook (w : World Ctx) (e : Thrown) :
  onError options = None ->
  recover options e w
  = (Ok (Some (createErrorResponse e (context w)
                 (createResponse (framework options)))), w).
Proof.
  intro H. unfold recover, bind, getContext, ret. simpl. now rewrite H.
Qed.

Lemma recover_with_hook (w : World Ctx) (e : Thrown)
      (hook : Thrown -> Ctx -> Outcome Resp) :
  onError options = Some hook ->
  recover options e w
  = (match hook e (context w) with
     | Ok r => Ok (Some r)
     | Throw x => Throw x
     end, withEvents w [EvOnError e]).
Proof.
  intro H. unfold recover, bind, getContext, emit, lift, ret. simpl.
  rewrite H. simpl. now destruct (hook e (context w)).
Qed.

(** C1 (as amended).  When the headers of the request hold no cookie
    header and no error hook is configured, the middleware returns the
    response that the adapter builds for status 401 and the body
    [{ success: false, message: "No session token found",
       code: "UNAUTHORIZED" }]; it calls nothing on the way: the cache, the
    context and the log of calls, hence the number of remote calls, are as
    before. *)
Theorem C1_no_cookie_header_is_unauthorized :
  forall (w : World Ctx) (h : Headers),
    onError options = None ->
    getHeaders (framework options) req = Ok h ->
    cookie h = None ->
    middleware options getSession next clock req w
    = (Ok (Some (createResponse (framework options) (context w)
                   {| success := false;
                      message := "No session token found";
                      code := "UNAUTHORIZED" |} 401%Z)), w)
    /\ remoteCalls (snd (middleware options getSession next clock req w))
       = remoteCalls w.
Proof.
  intros w h Hhook Hh Hc.
  assert (Ht : tokenOf h = None) by (unfold tokenOf; now rewrite Hc).
  assert (H : middleware options getSession next clock req w
              = (Ok (Some (createResponse (framework options) (context w)
                             {| success := false;
                                message := "No session token found";
                                code := "UNAUTHORIZED" |} 401%Z)), w)).
  { rewrite middleware_unfold.
    rewrite (attempt_no_token _ _ _ _ _ _ _ _ w h Hh Ht).
    now rewrite recover_without_hook. }
  split; [exact H | now rewrite H].
Qed.



(** The causes of failure: each makes the body of the [try] throw, the
    later ones on a cache miss. *)
Lemma failure_causes (w : World Ctx) (h : Headers) (tok : string) :
  (forall e, getHeaders (framework options) req = Throw e ->
             fst (attempt options getSession next clock req w) = Throw e)
  /\ (getHeaders (framework options) req = Ok h -> tokenOf h = None ->
      fst (attempt options getSession next clock req w)
      = Throw (newError "No session token found"))
  /\ (getHeaders (framework options) req = Ok h -> tokenOf h = Some tok ->
      fst (cacheHas clock tok w) = Ok false ->
      (forall e, getSession h = Throw e ->
                 fst (attempt options getSession next clock req w) = Throw e)
      /\ (forall r e, getSession h = Ok r -> error r = Some e ->
                      fst (attempt options getSession next clock req w)
                      = Throw (thrownOf e))
      /\ (forall r, getSession h = Ok r -> error r = None ->
                    resolvedContext r = None ->
                    fst (attempt options getSession next clock req w)
                    = Throw (newError "Invalid session response"))).
Proof.
  split; [|split].
  - intros e H. now rewrite (attempt_headers_throw _ _ _ _ _ _ _ _ w e H).
  - intros Hh Ht. now rewrite (attempt_no_token _ _ _ _ _ _ _ _ w h Hh Ht).
  - intros Hh Ht Hmiss.
    rewrite (attempt_miss _ _ _ _ _ _ _ _ w h tok Hh Ht Hmiss).
    split; [|split].
    + intros e H. now rewrite (remote_throws _ _ _ _ _ _ _ w h tok e H).
    + intros r e H He.
      now rewrite (remote_rejected _ _ _ _ _ _ _ w h tok r e H He).
    + intros r H He Hc.
      now rewrite (remote_malformed _ _ _ _ _ _ _ w h tok r H He Hc).
Qed.

(** Without a hook the middleware returns on every input. *)
Lemma middleware_never_throws_without_hook (w : World Ctx) :
  onError options = None ->
  exists r, fst (middleware options getSession next clock req w) = Ok r.
Proof.
  intro Hhook. rewrite middleware_unfold.
  destruct (attempt options getSession next clock req w) as [[r|e] w'].
  - now exists r.
  - rewrite recover_without_hook by exact Hhook. eexists. reflexivity.
Qed.

End MiddlewareProperties.

Section CacheBranch.
Import Classifier Middleware.

Variables Req Ctx Resp : Type.
Variable options : AuthMiddlewareOptions Req Ctx Resp.

Local Open Scope Z_scope.

(** An entry is readable from its [set] until one ttl later. *)
Lemma set_then_live (c : SessionCache.t) (ts now : Z) (k : string)
      (a : AuthContext) :
  now - ts <= LRUCache.ttl (LRUCache.options c) ->
  SessionCache.has now k (SessionCache.set ts k a c) = true
  /\ fst (SessionCache.get now k (SessionCache.set ts k a c)) = Some a.
Proof.
  intro H.
  pose proof (set_stamps_entry c ts k a) as He.
  assert (Hs : LRUCache.isStale now
                 {| LRUCache.key := k; LRUCache.value := a;
                    LRUCache.start :=
                      LRUCache.stamp ts (LRUCache.ttl (LRUCache.options c));
                    LRUCache.entryTtl := LRUCache.ttl (LRUCache.options c) |}
               = false).
  { unfold LRUCache.isStale, LRUCache.stamp. simpl.
    destruct (Z.eqb (LRUCache.ttl (LRUCache.options c)) 0) eqn:E;
      [reflexivity|].
    simpl. rewrite Z.gtb_ltb.
    replace (Z.ltb (LRUCache.ttl (LRUCache.options c)) (now - ts)) with false.
    - now rewrite andb_false_r.
    - symmetry. now apply Z.ltb_ge. }
  unfold SessionCache.has, SessionCache.get, LRUCache.has, LRUCache.get.
  rewrite He, Hs. split; reflexivity.
Qed.

(** A hit: no remote call, the cached pair is injected, the continuation
    runs and the middleware returns nothing. *)
Lemma cache_hit_skips_remote
      (getSession : Headers -> Outcome BetterAuthSessionResponse)
      (next : Ctx -> Outcome Ctx) (clock : Clock) (req : Req)
      (w : World Ctx) (c : SessionCache.t) (h : Headers) (tok : string)
      (a : AuthContext) (ctx' : Ctx) :
  sessionCache w = Some c ->
  getHeaders (framework options) req = Ok h ->
  tokenOf h = Some tok ->
  SessionCache.has (t_has clock) tok c = true ->
  fst (SessionCache.get (t_get clock) tok c) = Some a ->
  next (inject (framework options) (context w) a) = Ok ctx' ->
  middleware options getSession next clock req w
  = (Ok None,
     {| sessionCache := Some (snd (SessionCache.get (t_get clock) tok c));
        context := ctx';
        events := events w ++ injections a ++ [EvNext] |}).
Proof.
  intros Hc Hh Ht Hhas Hget Hnext.
  rewrite middleware_unfold.
  rewrite (attempt_token _ _ _ options getSession next clock req w h tok Hh Ht).
  unfold bind at 1. unfold cacheHas, bind, getCache, ret. rewrite Hc, Hhas.
  unfold cacheGet, bind, getCache, putCache, ret. rewrite Hc.
  destruct (SessionCache.get (t_get clock) tok c) as [r c'] eqn:E.
  simpl in Hget. subst r. simpl.
  rewrite proceed_run. simpl. rewrite Hnext.
  unfold injections. rewrite <- app_assoc. reflexivity.
Qed.

(** A miss answered with a Resolved Context: one remote call, the pair is
    stored under the token and injected. *)
Lemma remote_success_caches
      (getSession : Headers -> Outcome BetterAuthSessionResponse)
      (next : Ctx -> Outcome Ctx) (clock : Clock) (req : Req)
      (w : World Ctx) (c : SessionCache.t) (h : Headers) (tok : string)
      (r : BetterAuthSessionResponse) (a : AuthContext) (ctx' : Ctx) :
  sessionCache w = Some c ->
  getHeaders (framework options) req = Ok h ->
  tokenOf h = Some tok ->
  SessionCache.has (t_has clock) tok c = false ->
  getSession h = Ok r -> error r = None -> resolvedContext r = Some a ->
  next (inject (framework options) (context w) a) = Ok ctx' ->
  middleware options getSession next clock req w
  = (Ok None,
     {| sessionCache := Some (SessionCache.set (t_set clock) tok a c);
        context := ctx';
        events := events w ++ [EvGetSession h] ++ injections a ++ [EvNext] |}).
Proof.
  intros Hc Hh Ht Hhas Hr He Ha Hnext.
  rewrite middleware_unfold.
  rewrite (attempt_miss _ _ _ options getSession next clock req w h tok Hh Ht).
  - rewrite (remote_resolved _ _ _ options getSession next clock w h tok r a
               Hr He Ha).
    rewrite proceed_run. simpl. rewrite Hnext, Hc.
    unfold injections. rewrite <- !app_assoc. reflexivity.
  - unfold cacheHas, bind, getCache, ret. now rewrite Hc, Hhas.
Qed.

(** C8.  A first invocation misses the cache, resolves the token remotely
    to a user and a session, and succeeds.  A second invocation with the
    same token, whose cache reads fall within one ttl of the first one's
    [set], makes no remote call, injects the same user and session as the
    first, and returns nothing once its continuation has completed. *)
Theorem C8_warm_cache_is_idempotent :
  forall (getSession1 getSession2 : Headers -> Outcome BetterAuthSessionResponse)
         (next1 next2 : Ctx -> Outcome Ctx) (clock1 clock2 : Clock)
         (req1 req2 : Req) (c0 : SessionCache.t) (ctx1 ctx2 ctx1' ctx2' : Ctx)
         (h1 h2 : Headers) (tok : string)
         (r : BetterAuthSessionResponse) (a : AuthContext),
    getHeaders (framework options) req1 = Ok h1 -> tokenOf h1 = Some tok ->
    SessionCache.has (t_has clock1) tok c0 = false ->
    getSession1 h1 = Ok r -> error r = None -> resolvedContext r = Some a ->
    next1 (inject (framework options) ctx1 a) = Ok ctx1' ->
    getHeaders (framework options) req2 = Ok h2 -> tokenOf h2 = Some tok ->
    t_has clock2 <= t_get clock2 ->
    t_get clock2 - t_set clock1 <= LRUCache.ttl (LRUCache.options c0) ->
    next2 (inject (framework options) ctx2 a) = Ok ctx2' ->
    let first := middleware options getSession1 next1 clock1 req1
                            (start (Some c0) ctx1) in
    let second := middleware options getSession2 next2 clock2 req2
                             (start (sessionCache (snd first)) ctx2) in
    fst first = Ok None
    /\ injected (snd first) = injections a
    /\ fst second = Ok None
    /\ remoteCalls (snd second) = 0%nat
    /\ injected (snd second) = injected (snd first)
    /\ context (snd second) = ctx2'.
Proof.
  intros gs1 gs2 next1 next2 clock1 clock2 req1 req2 c0 ctx1 ctx2 ctx1' ctx2'
         h1 h2 tok r a Hh1 Ht1 Hmiss Hr He Ha Hn1 Hh2 Ht2 Hle Hlive Hn2.
  cbv zeta.
  rewrite (remote_success_caches gs1 next1 clock1 req1 (start (Some c0) ctx1)
             c0 h1 tok r a ctx1' eq_refl Hh1 Ht1 Hmiss Hr He Ha Hn1).
  simpl fst. simpl snd. simpl sessionCache.
  destruct (set_then_live c0 (t_set clock1) (t_has clock2) tok a) as [Hhas _];
    [lia|].
  destruct (set_then_live c0 (t_set clock1) (t_get clock2) tok a) as [_ Hget];
    [lia|].
  rewrite (cache_hit_skips_remote gs2 next2 clock2 req2
             (start (Some (SessionCache.set (t_set clock1) tok a c0)) ctx2)
             _ h2 tok a ctx2' eq_refl Hh2 Ht2 Hhas Hget Hn2).
  unfold injected, remoteCalls. simpl.
  repeat split; reflexivity.
Qed.

End CacheBranch.

Section StaleBetweenHasAndGet.
Import Classifier Middleware.

Variables Req Ctx Resp : Type.
Variable options : AuthMiddlewareOptions Req Ctx Resp.
Variable getSession : Headers -> Outcome BetterAuthSessionResponse.
Variable next : Ctx -> Outcome Ctx.
Variable clock : Clock.
Variable req : Req.



(** The remote resolution logs its call first and makes no other. *)
Lemma remote_calls_once (w : World Ctx) (h : Headers) (tok : string) :
  exists evs,
    events (snd (resolveRemotely options getSession next clock h tok w))
    = events w ++ EvGetSession h :: evs
    /\ filter isGetSession evs = [].
Proof.
  destruct (getSession h) as [r|e] eqn:Hr.
  - destruct (error r) as [e|] eqn:He.
    + rewrite (remote_rejected _ _ _ options getSession next clock w h tok r e Hr He).
      exists []. split; reflexivity.
    + destruct (resolvedContext r) as [a|] eqn:Ha.
      * rewrite (remote_resolved _ _ _ options getSession next clock w h tok r a
                   Hr He Ha).
        rewrite proceed_run. simpl.
        exists (injections a ++ [EvNext]). split; [|reflexivity].
        destruct (next _); simpl; unfold injections;
          rewrite <- !app_assoc; reflexivity.
      * rewrite (remote_malformed _ _ _ options getSession next clock w h tok r
                   Hr He Ha).
        exists []. split; reflexivity.
  - rewrite (remote_throws _ _ _ options getSession next clock w h tok e Hr).
    exists []. split; reflexivity.
Qed.

Lemma recover_calls_nothing_remote (w : World Ctx) (e : Thrown) :
  remoteCalls (snd (recover options e w)) = remoteCalls w.
Proof.
  destruct (onError options) as [hook|] eqn:H.
  - rewrite (recover_with_hook _ _ _ options w e hook H).
    unfold remoteCalls, withEvents. simpl.
    rewrite filter_app. simpl. now rewrite app_nil_r.
  - now rewrite (recover_without_hook _ _ _ options w e H).
Qed.


End StaleBetweenHasAndGet.

(* ===================================================================== *)
(** * The properties on the plain adapter                                  *)
(* ===================================================================== *)

Section Scenarios.
Import Classifier Middleware.

Local Open Scope Z_scope.

(** C1 on a request without headers, no cache and no hook. *)
Lemma C1_witness :
  middleware (plainOptions None None) (respond sampleResponse) continue
             (clockAt 1 1 1) (requestWith None) (start None emptyContext)
  = (Ok (Some {| status := 401;
                 body := {| success := false;
                            message := "No session token found";
                            code := "UNAUTHORIZED" |} |}),
     start None emptyContext)
  /\ remoteCalls
       (snd (middleware (plainOptions None None) (respond sampleResponse)
               continue (clockAt 1 1 1) (requestWith None)
               (start None emptyContext)))
     = remoteCalls (start None emptyContext).
Proof.
  exact (C1_no_cookie_header_is_unauthorized
           Headers PlainContext AuthResponse
           (plainOptions None None) (respond sampleResponse) continue
           (clockAt 1 1 1) (requestWith None)
           (start None emptyContext) (requestWith None)
           eq_refl eq_refl eq_refl).
Defined.

(** C1 (the claim as stated fails).  For a request without a cookie header
    the message of the body is the message of the error that the
    middleware throws, "No session token found", and not "Invalid or
    missing session". *)
Lemma C1_counterexample :
  fst (middleware (plainOptions None None) (respond sampleResponse) continue
         (clockAt 1 1 1) (requestWith None) (start None emptyContext))
  = Ok (Some {| status := 401;
                body := {| success := false;
                           message := "No session token found";
                           code := "UNAUTHORIZED" |} |})
  /\ String.eqb "No session token found" "Invalid or missing session" = false.
Proof. split; reflexivity. Qed.




(** C8 on the scenario of the specification: the token [abc123] is
    resolved at 1000 ms and presented again two seconds later. *)
Lemma C8_witness :
  let options := plainOptions cacheEnabled None in
  let request := requestWith (Some "better-auth.session_token=abc123; other=1") in
  let first := middleware options (respond sampleResponse) continue
                          (clockAt 1000 1000 1000) request
                          (start (initialCache options) emptyContext) in
  let second := middleware options (respond expiredResponse) continue
                           (clockAt 3000 3000 3000) request
                           (start (sessionCache (snd first)) emptyContext) in
  fst first = Ok None
  /\ injected (snd first) = injections sampleContext
  /\ fst second = Ok None
  /\ remoteCalls (snd second) = 0%nat
  /\ injected (snd second) = injected (snd first)
  /\ context (snd second)
     = {| ctx_user := Some sampleUser; ctx_session := Some sampleSession |}.
Proof.
  cbv zeta.
  refine (C8_warm_cache_is_idempotent
            Headers PlainContext AuthResponse
            (plainOptions cacheEnabled None)
            (respond sampleResponse) (respond expiredResponse)
            continue continue (clockAt 1000 1000 1000) (clockAt 3000 3000 3000)
            (requestWith (Some "better-auth.session_token=abc123; other=1"))
            (requestWith (Some "better-auth.session_token=abc123; other=1"))
            (SessionCache.new 1000 300) emptyContext emptyContext
            {| ctx_user := Some sampleUser; ctx_session := Some sampleSession |}
            {| ctx_user := Some sampleUser; ctx_session := Some sampleSession |}
            (requestWith (Some "better-auth.session_token=abc123; other=1"))
            (requestWith (Some "better-auth.session_token=abc123; other=1"))
            "abc123" sampleResponse sampleContext
            eq_refl eq_refl eq_refl eq_refl eq_refl eq_refl eq_refl
            eq_refl eq_refl _ _ eq_refl).
  - simpl. lia.
  - simpl. lia.
Defined.


End Scenarios.

(* ===================================================================== *)
(** * More on the session cache                                            *)
(* ===================================================================== *)

Section CacheOperations.
Import LRUCache.

Local Open Scope Z_scope.

Lemma lookupEntry_present (c : SessionCache.t) (k : string)
      (e : Entry AuthContext) :
  lookupEntry k c = Some e -> In k (SessionCache.keys c).
Proof.
  unfold lookupEntry, SessionCache.keys, keys. intro H.
  apply find_some in H. destruct H as [Hin Hk].
  apply String.eqb_eq in Hk. rewrite <- Hk. now apply in_map.
Qed.

Lemma others_absent (k : string) (ks : list string) : ~ In k (others k ks).
Proof.
  unfold others. intro H. apply filter_In in H. destruct H as [_ H].
  now rewrite String.eqb_refl in H.
Qed.

Lemma others_NoDup (k : string) (ks : list string) :
  NoDup ks -> NoDup (others k ks).
Proof. unfold others. apply NoDup_filter. Qed.

Lemma others_shorter (k : string) (ks : list string) :
  In k ks -> (S (List.length (others k ks)) <= List.length ks)%nat.
Proof.
  unfold others. induction ks as [|x ks IH]; intro H; [inversion H|].
  simpl. destruct (String.eqb x k) eqn:E; simpl.
  - pose proof (filter_length_le (fun x0 => negb (String.eqb x0 k)) ks). lia.
  - destruct H as [->|H]; [now rewrite String.eqb_refl in E|].
    specialize (IH H). lia.
Qed.

Lemma others_not_longer (k : string) (ks : list string) :
  (List.length (others k ks) <= List.length ks)%nat.
Proof. unfold others. apply filter_length_le. Qed.

Lemma others_id (k : string) (ks : list string) :
  ~ In k ks -> others k ks = ks.
Proof.
  unfold others. induction ks as [|x ks IH]; intro H; [reflexivity|].
  simpl. destruct (String.eqb x k) eqn:E.
  - apply String.eqb_eq in E. exfalso. apply H. now left.
  - simpl. f_equal. apply IH. intro Hin. apply H. now right.
Qed.

Lemma NoDup_snoc (k : string) (ks : list string) :
  NoDup ks -> ~ In k ks -> NoDup (ks ++ [k]).
Proof.
  intros Hnd Hk. induction ks as [|x ks IH]; simpl.
  - constructor; [intros [] | constructor].
  - inversion Hnd as [|? ? Hx Hnd']; subst. constructor.
    + intro Hin. apply in_app_or in Hin. destruct Hin as [Hin|[Hin|[]]].
      * contradiction.
      * subst. apply Hk. now left.
    + apply IH; [exact Hnd'|]. intro Hin. apply Hk. now right.
Qed.

Lemma keys_delete (c : SessionCache.t) (k : string) :
  SessionCache.keys (SessionCache.delete k c) = others k (SessionCache.keys c).
Proof.
  unfold SessionCache.keys, SessionCache.delete, keys, delete. simpl.
  apply keys_without.
Qed.

Lemma keys_set_present (c : SessionCache.t) (now : Z) (k : string)
      (v : AuthContext) (e : Entry AuthContext) :
  lookupEntry k c = Some e ->
  SessionCache.keys (SessionCache.set now k v c)
  = (others k (SessionCache.keys c) ++ [k])%list.
Proof.
  unfold SessionCache.set, SessionCache.keys, set, keys. intros ->. simpl.
  now rewrite map_app, keys_without.
Qed.

(** What [get] does to the keys: nothing on a miss, removal on a stale
    entry, a move to the most recent place on a hit. *)
Lemma keys_get (c : SessionCache.t) (now : Z) (k : string) :
  SessionCache.keys (snd (SessionCache.get now k c)) = SessionCache.keys c
  \/ SessionCache.keys (snd (SessionCache.get now k c))
     = others k (SessionCache.keys c)
  \/ (In k (SessionCache.keys c)
      /\ SessionCache.keys (snd (SessionCache.get now k c))
         = (others k (SessionCache.keys c) ++ [k])%list).
Proof.
  unfold SessionCache.get, get.
  destruct (lookupEntry k c) as [e|] eqn:E; [|now left].
  destruct (isStale now e).
  - right. left. apply keys_delete.
  - right. right. split; [exact (lookupEntry_present _ _ _ E)|].
    unfold SessionCache.keys, keys. simpl.
    rewrite map_app, keys_without. simpl.
    now rewrite (lookupEntry_key _ _ _ E).
Qed.

Lemma options_get (c : SessionCache.t) (now : Z) (k : string) :
  options (snd (SessionCache.get now k c)) = options c.
Proof.
  unfold SessionCache.get, get. destruct (lookupEntry k c); [|reflexivity].
  now destruct (isStale now e).
Qed.

Lemma options_applyOp (op : CacheOp) (c : SessionCache.t) :
  options (applyOp op c) = options c.
Proof.
  destruct op; simpl;
    [apply options_set | apply options_get | reflexivity | reflexivity
     | reflexivity].
Qed.

(** One call keeps the keys distinct and the size within the capacity. *)
Lemma applyOp_keeps_bound (op : CacheOp) (c : SessionCache.t) :
  (1 <= max (options c))%nat ->
  NoDup (SessionCache.keys c) ->
  (SessionCache.size c <= max (options c))%nat ->
  NoDup (SessionCache.keys (applyOp op c))
  /\ (SessionCache.size (applyOp op c) <= max (options c))%nat.
Proof.
  intros Hmax Hnd Hsize.
  assert (Hlen : forall c', SessionCache.size c'
                            = List.length (SessionCache.keys c')).
  { intro c'. unfold SessionCache.size, SessionCache.keys, size, keys.
    now rewrite length_map. }
  rewrite Hlen in Hsize. rewrite Hlen.
  destruct op as [now k v|now k|now k|k|]; simpl.
  - destruct (lookupEntry k c) as [e|] eqn:E.
    + rewrite (keys_set_present c now k v e E).
      pose proof (others_shorter k _ (lookupEntry_present _ _ _ E)).
      split.
      * apply NoDup_snoc; [now apply others_NoDup | apply others_absent].
      * rewrite length_app. simpl. lia.
    + rewrite (keys_set_absent c now k v E).
      assert (Hk : ~ In k (SessionCache.keys c)).
      { intro Hin. unfold SessionCache.keys, keys in Hin.
        apply in_map_iff in Hin. destruct Hin as [x [Hx Hin]].
        unfold lookupEntry in E.
        apply (find_none _ _ E) in Hin. unfold isKey in Hin.
        rewrite Hx, String.eqb_refl in Hin. discriminate. }
      destruct (Nat.eqb (List.length (SessionCache.keys c)) (max (options c)))
               eqn:Efull.
      * apply Nat.eqb_eq in Efull.
        destruct (SessionCache.keys c) as [|x ks] eqn:Eks; simpl in *.
        -- lia.
        -- inversion Hnd; subst. split.
           ++ apply NoDup_snoc; [assumption|]. intro Hin. apply Hk. now right.
           ++ rewrite length_app. simpl. lia.
      * apply Nat.eqb_neq in Efull. split.
        -- now apply NoDup_snoc.
        -- rewrite length_app. simpl. lia.
  - destruct (keys_get c now k) as [H|[H|[Hin H]]]; rewrite H.
    + now split.
    + split; [now apply others_NoDup|].
      pose proof (others_not_longer k (SessionCache.keys c)). lia.
    + split.
      * apply NoDup_snoc; [now apply others_NoDup | apply others_absent].
      * pose proof (others_shorter k _ Hin). rewrite length_app. simpl. lia.
  - now split.
  - rewrite keys_delete. split; [now apply others_NoDup|].
    pose proof (others_not_longer k (SessionCache.keys c)). lia.
  - unfold SessionCache.keys, SessionCache.clear, keys, clear. simpl.
    split; [constructor | lia].
Qed.

Lemma applyOps_keeps_bound (ops : list CacheOp) (c : SessionCache.t) :
  (1 <= max (options c))%nat ->
  NoDup (SessionCache.keys c) ->
  (SessionCache.size c <= max (options c))%nat ->
  NoDup (SessionCache.keys (applyOps ops c))
  /\ (SessionCache.size (applyOps ops c) <= max (options c))%nat.
Proof.
  revert c. induction ops as [|op ops IH]; intros c Hmax Hnd Hsize.
  - now split.
  - simpl. destruct (applyOp_keeps_bound op c Hmax Hnd Hsize) as [Hnd' Hsize'].
    rewrite <- (options_applyOp op c) in Hmax, Hsize'.
    destruct (IH _ Hmax Hnd' Hsize') as [H1 H2].
    rewrite options_applyOp in H2. now split.
Qed.

(** X1.  Whatever calls are made on a cache that
    [new SessionCache(max, ttl)] built with [max >= 1] and a ttl that is
    not negative, in whatever order and at whatever times, the cache never
    holds more than [max] entries and never holds two entries for one
    token. *)
Theorem X1_cache_never_exceeds_capacity :
  forall (max : nat) (ttl : Z) (ops : list CacheOp),
    (1 <= max)%nat ->
    (0 <= ttl)%Z ->
    (SessionCache.size (applyOps ops (SessionCache.new max ttl)) <= max)%nat
    /\ NoDup (SessionCache.keys (applyOps ops (SessionCache.new max ttl))).
Proof.
  intros max0 ttl0 ops Hmax _.
  destruct (applyOps_keeps_bound ops (SessionCache.new max0 ttl0)) as [H1 H2].
  - exact Hmax.
  - constructor.
  - unfold SessionCache.size, SessionCache.new, size. simpl. lia.
  - split; [exact H2 | exact H1].
Qed.

(** X1 on a cache of two entries that is set three times, read and set
    again. *)
Lemma X1_witness :
  (SessionCache.size
     (applyOps [ OpSet 1 "a" sampleContext; OpSet 2 "b" sampleContext;
                 OpSet 3 "c" sampleContext; OpGet 4 "b";
                 OpSet 5 "a" sampleContext ]
               (SessionCache.new 2 300)) <= 2)%nat
  /\ NoDup (SessionCache.keys
              (applyOps [ OpSet 1 "a" sampleContext; OpSet 2 "b" sampleContext;
                          OpSet 3 "c" sampleContext; OpGet 4 "b";
                          OpSet 5 "a" sampleContext ]
                        (SessionCache.new 2 300))).
Proof.
  refine (X1_cache_never_exceeds_capacity 2 300
            [ OpSet 1 "a" sampleContext; OpSet 2 "b" sampleContext;
              OpSet 3 "c" sampleContext; OpGet 4 "b";
              OpSet 5 "a" sampleContext ] (le_S _ _ (le_n 1)) _).
  discriminate.
Defined.

End CacheOperations.

Section RecencyAndAge.
Import LRUCache.

Local Open Scope Z_scope.

Lemma sorted_filter (f : Entry AuthContext -> bool)
      (es : list (Entry AuthContext)) :
  StronglySorted byStamp es -> StronglySorted byStamp (filter f es).
Proof.
  induction 1 as [|e es Hs IH Hall]; simpl; [constructor|].
  destruct (f e); [|exact IH].
  constructor; [exact IH|].
  apply Forall_forall. intros x Hx. apply filter_In in Hx.
  rewrite Forall_forall in Hall. now apply Hall.
Qed.

Lemma sorted_snoc (es : list (Entry AuthContext)) (e : Entry AuthContext) :
  StronglySorted byStamp es -> Forall (fun x => start x <= start e) es ->
  StronglySorted byStamp (es ++ [e]).
Proof.
  induction 1 as [|x es Hs IH Hall]; intro Hle; simpl.
  - constructor; constructor.
  - inversion Hle; subst. constructor; [now apply IH|].
    apply Forall_app. split; [exact Hall|]. constructor; [assumption|constructor].
Qed.

Lemma Forall_filter_keep (P : Entry AuthContext -> Prop)
      (f : Entry AuthContext -> bool) (es : list (Entry AuthContext)) :
  Forall P es -> Forall P (filter f es).
Proof.
  intro H. apply Forall_forall. intros x Hx. apply filter_In in Hx.
  rewrite Forall_forall in H. now apply H.
Qed.

Lemma Forall_later (t now : Z) (es : list (Entry AuthContext)) :
  t <= now -> Forall (fun e => start e <= t) es ->
  Forall (fun e => start e <= now) es.
Proof.
  intros Hle H. eapply Forall_impl; [|exact H]. simpl. intros; lia.
Qed.

Lemma evict_sublist (c : SessionCache.t) :
  StronglySorted byStamp (entries c) ->
  StronglySorted byStamp (evict c)
  /\ (forall P, Forall P (entries c) -> Forall P (evict c)).
Proof.
  intro Hs. unfold evict. destruct (entries c) as [|x es]; [now split|].
  destruct (Nat.eqb (List.length (x :: es)) (max (options c))).
  - split; [now inversion Hs|]. intros P HP. now inversion HP.
  - now split.
Qed.

(** A timed call at a time not before [t] keeps the order, with the new
    bound [now]; an untimed call keeps it with the old one. *)
Lemma applyOp_keeps_order (t : Z) (op : CacheOp) (c : SessionCache.t) :
  updateAgeOnGet (options c) = true ->
  ttl (options c) <> 0 ->
  inStampOrder t c ->
  match op with
  | OpSet now _ _ | OpGet now _ | OpHas now _ =>
      t <= now -> inStampOrder now (applyOp op c)
  | _ => inStampOrder t (applyOp op c)
  end.
Proof.
  intros Hup Httl [Hs [Hb Ht]].
  apply Z.eqb_neq in Httl.
  destruct op as [now k v|now k|now k|k|]; simpl.
  - intro Hle. unfold SessionCache.set, set, inStampOrder.
    pose proof (Forall_later _ _ _ Hle Hb) as Hb'.
    assert (Hst : stamp now (ttl (options c)) = now)
      by (unfold stamp; now rewrite Httl).
    destruct (lookupEntry k c); simpl; rewrite Hst.
    + repeat split.
      * apply sorted_snoc; [now apply sorted_filter|].
        simpl. now apply Forall_filter_keep.
      * apply Forall_app. split; [now apply Forall_filter_keep|].
        constructor; [simpl; lia | constructor].
      * apply Forall_app. split; [now apply Forall_filter_keep|].
        constructor; [reflexivity | constructor].
    + destruct (evict_sublist c Hs) as [Hs' Hall].
      repeat split.
      * apply sorted_snoc; [exact Hs'|]. simpl. now apply Hall.
      * apply Forall_app. split; [now apply Hall|].
        constructor; [simpl; lia | constructor].
      * apply Forall_app. split; [now apply Hall|].
        constructor; [reflexivity | constructor].
  - intro Hle. unfold SessionCache.get, get, inStampOrder.
    pose proof (Forall_later _ _ _ Hle Hb) as Hb'.
    destruct (lookupEntry k c) as [e|] eqn:E; simpl.
    + assert (Hte : entryTtl e = ttl (options c)).
      { unfold lookupEntry in E. apply find_some in E. destruct E as [Hin _].
        rewrite Forall_forall in Ht. now apply Ht. }
      destruct (isStale now e); simpl.
      * repeat split; [now apply sorted_filter | now apply Forall_filter_keep
                       | now apply Forall_filter_keep].
      * rewrite Hup, Hte.
        assert (Hst : stamp now (ttl (options c)) = now)
          by (unfold stamp; now rewrite Httl).
        rewrite Hst. repeat split.
        -- apply sorted_snoc; [now apply sorted_filter|].
           simpl. now apply Forall_filter_keep.
        -- apply Forall_app. split; [now apply Forall_filter_keep|].
           constructor; [simpl; lia | constructor].
        -- apply Forall_app. split; [now apply Forall_filter_keep|].
           constructor; [reflexivity | constructor].
    + repeat split; assumption.
  - intro Hle. unfold inStampOrder. repeat split; try assumption.
    now apply (Forall_later t now).
  - unfold SessionCache.delete, delete, inStampOrder. simpl.
    repeat split; [now apply sorted_filter | now apply Forall_filter_keep
                   | now apply Forall_filter_keep].
  - unfold SessionCache.clear, clear, inStampOrder. simpl.
    repeat split; constructor.
Qed.

Lemma applyOps_keeps_order (ops : list CacheOp) (t : Z) (c : SessionCache.t) :
  updateAgeOnGet (options c) = true ->
  ttl (options c) <> 0 ->
  chronological t ops ->
  inStampOrder t c ->
  exists t', inStampOrder t' (applyOps ops c).
Proof.
  revert t c. induction ops as [|op ops IH]; intros t c Hup Httl Hch Hinv.
  - now exists t.
  - pose proof (applyOp_keeps_order t op c Hup Httl Hinv) as Hstep.
    assert (Hup' : updateAgeOnGet (options (applyOp op c)) = true)
      by now rewrite options_applyOp.
    assert (Httl' : ttl (options (applyOp op c)) <> 0)
      by now rewrite options_applyOp.
    simpl. destruct op as [now k v|now k|now k|k|]; simpl in Hch.
    + destruct Hch as [Hle Hch]. exact (IH now _ Hup' Httl' Hch (Hstep Hle)).
    + destruct Hch as [Hle Hch]. exact (IH now _ Hup' Httl' Hch (Hstep Hle)).
    + destruct Hch as [Hle Hch]. exact (IH now _ Hup' Httl' Hch (Hstep Hle)).
    + exact (IH t _ Hup' Httl' Hch Hstep).
    + exact (IH t _ Hup' Httl' Hch Hstep).
Qed.

(** X2.  On a cache built by [new SessionCache(max, ttl)] with a
    positive ttl, after any run of calls made on a clock that does not run
    backwards, the recency order is the order of the stamps: the entries
    stand in ascending order of the time of their last [set] or successful
    [get].  The entry that an overflowing [set] evicts, the first one,
    therefore has the oldest stamp, and the stamps left are the others
    followed by the time of that [set]. *)
Theorem X2_recency_order_is_stamp_order :
  forall (max : nat) (ttl : Z) (ops : list CacheOp) (t0 : Z),
    0 < ttl ->
    chronological t0 ops ->
    StronglySorted Z.le (stamps (applyOps ops (SessionCache.new max ttl)))
    /\ (forall now k v,
           lookupEntry k (applyOps ops (SessionCache.new max ttl)) = None ->
           SessionCache.size (applyOps ops (SessionCache.new max ttl)) = max ->
           stamps (SessionCache.set now k v
                     (applyOps ops (SessionCache.new max ttl)))
           = (tl (stamps (applyOps ops (SessionCache.new max ttl)))
                ++ [now])%list).
Proof.
  intros max0 ttl0 ops t0 Httl Hch.
  assert (Httl' : ttl (options (SessionCache.new max0 ttl0)) <> 0)
    by (simpl; lia).
  destruct (applyOps_keeps_order ops t0 (SessionCache.new max0 ttl0)
              eq_refl Httl' Hch) as [t' [Hs _]].
  { repeat split; constructor. }
  split.
  - unfold stamps. clear - Hs.
    induction Hs as [|e es Hs IH Hall]; simpl; constructor; [exact IH|].
    apply Forall_forall. intros s Hin. apply in_map_iff in Hin.
    destruct Hin as [x [<- Hx]]. rewrite Forall_forall in Hall.
    now apply Hall.
  - intros now k v Hk Hsize.
    assert (Hopt : options (applyOps ops (SessionCache.new max0 ttl0))
                   = options (SessionCache.new max0 ttl0)).
    { clear. generalize (SessionCache.new max0 ttl0).
      induction ops as [|op ops IH]; intro c; simpl; [reflexivity|].
      unfold applyOps in IH. rewrite IH. apply options_applyOp. }
    unfold stamps, SessionCache.set, set. rewrite Hk. simpl.
    rewrite map_app. simpl. rewrite Hopt. simpl.
    unfold stamp. replace (Z.eqb (ttl0 * 1000) 0) with false
      by (symmetry; apply Z.eqb_neq; lia).
    f_equal. unfold evict. rewrite Hopt. simpl.
    unfold SessionCache.size, size in Hsize.
    destruct (entries (applyOps ops (SessionCache.new max0 ttl0)))
      as [|e es]; [reflexivity|].
    rewrite <- Hsize. simpl. now rewrite Nat.eqb_refl.
Qed.

(** X2 on a cache of two entries: [a] and [b] are set, [a] is read, then
    [c] overflows the cache. *)
Lemma X2_witness :
  StronglySorted Z.le
    (stamps (applyOps [ OpSet 10 "a" sampleContext; OpSet 20 "b" sampleContext;
                        OpGet 30 "a" ]
                      (SessionCache.new 2 300)))
  /\ stamps (SessionCache.set 40 "c" sampleContext
               (applyOps [ OpSet 10 "a" sampleContext;
                           OpSet 20 "b" sampleContext; OpGet 30 "a" ]
                         (SessionCache.new 2 300)))
     = [30; 40]%list.
Proof.
  destruct (X2_recency_order_is_stamp_order 2 300
              [ OpSet 10 "a" sampleContext; OpSet 20 "b" sampleContext;
                OpGet 30 "a" ] 0) as [Hs Hev].
  - lia.
  - simpl. lia.
  - split; [exact Hs|].
    exact (Hev 40 "c" sampleContext eq_refl eq_refl).
Defined.

End RecencyAndAge.

Section CacheRoundTrips.
Import LRUCache.

Local Open Scope Z_scope.

Lemma find_without_other (k k' : string) (es : list (Entry AuthContext)) :
  k' <> k -> find (isKey k') (without k es) = find (isKey k') es.
Proof.
  intro Hne. induction es as [|e es IH]; simpl; [reflexivity|].
  destruct (isKey k e) eqn:Ek; simpl.
  - unfold isKey in *. apply String.eqb_eq in Ek.
    destruct (String.eqb (key e) k') eqn:Ek'; [|exact IH].
    apply String.eqb_eq in Ek'. congruence.
  - destruct (isKey k' e); [reflexivity | exact IH].
Qed.

Lemma without_absent (k : string) (es : list (Entry AuthContext)) :
  find (isKey k) es = None -> without k es = es.
Proof.
  induction es as [|e es IH]; simpl; intro H; [reflexivity|].
  destruct (isKey k e); [discriminate|]. simpl. f_equal. now apply IH.
Qed.

(** X3.  A token that was set can be read back: from the [set] until one
    ttl later [has] is true and [get] returns the value of that [set],
    whatever the cache held under that token before.  When the token was
    already in the cache the [set] replaces its entry and evicts nothing,
    even in a full cache. *)
Theorem X3_set_then_get_returns_the_value :
  forall (c : SessionCache.t) (ts now : Z) (k : string) (v : AuthContext),
    now - ts <= ttl (options c) ->
    SessionCache.has now k (SessionCache.set ts k v c) = true
    /\ fst (SessionCache.get now k (SessionCache.set ts k v c)) = Some v
    /\ (In k (SessionCache.keys c) ->
        SessionCache.keys (SessionCache.set ts k v c)
        = (others k (SessionCache.keys c) ++ [k])%list).
Proof.
  intros c ts now k v Hlive.
  destruct (set_then_live c ts now k v Hlive) as [Hhas Hget].
  split; [exact Hhas|]. split; [exact Hget|].
  intro Hin. destruct (lookupEntry k c) as [e|] eqn:E.
  - exact (keys_set_present c ts k v e E).
  - exfalso. unfold SessionCache.keys, keys in Hin.
    apply in_map_iff in Hin. destruct Hin as [x [Hx Hin]].
    unfold lookupEntry in E. apply (find_none _ _ E) in Hin.
    unfold isKey in Hin. rewrite Hx, String.eqb_refl in Hin. discriminate.
Qed.

(** X3 on a full cache of two entries whose first token is set again. *)
Lemma X3_witness :
  let c := applyOps [ OpSet 10 "a" sampleContext; OpSet 20 "b" sampleContext ]
                    (SessionCache.new 2 300) in
  SessionCache.has 300030 "a" (SessionCache.set 30 "a" sampleContext c) = true
  /\ fst (SessionCache.get 300030 "a" (SessionCache.set 30 "a" sampleContext c))
     = Some sampleContext
  /\ SessionCache.keys (SessionCache.set 30 "a" sampleContext c)
     = ["b"; "a"]%list.
Proof.
  cbv zeta.
  destruct (X3_set_then_get_returns_the_value
              (applyOps [ OpSet 10 "a" sampleContext;
                          OpSet 20 "b" sampleContext ]
                        (SessionCache.new 2 300))
              30 300030 "a" sampleContext) as [H1 [H2 H3]].
  - simpl. lia.
  - split; [exact H1|]. split; [exact H2|].
    apply H3. simpl. now left.
Defined.

(** X4.  After [delete] the token is gone: [has] is false and [get]
    returns nothing at any time.  The other tokens keep their entries and
    their order, and deleting a token that is not in the cache changes
    nothing. *)
Theorem X4_delete_removes_only_that_token :
  forall (c : SessionCache.t) (k : string),
    (forall now, SessionCache.has now k (SessionCache.delete k c) = false)
    /\ (forall now,
           SessionCache.get now k (SessionCache.delete k c)
           = (None, SessionCache.delete k c))
    /\ SessionCache.keys (SessionCache.delete k c)
       = others k (SessionCache.keys c)
    /\ (forall k', k' <> k ->
           lookupEntry k' (SessionCache.delete k c) = lookupEntry k' c)
    /\ (lookupEntry k c = None -> SessionCache.delete k c = c).
Proof.
  intros c k.
  assert (Hgone : lookupEntry k (SessionCache.delete k c) = None)
    by (unfold lookupEntry, SessionCache.delete, delete; simpl;
        apply find_without).
  split.
  { intro now. unfold SessionCache.has, has. now rewrite Hgone. }
  split.
  { intro now. unfold SessionCache.get, get. now rewrite Hgone. }
  split; [apply keys_delete|].
  split.
  { intros k' Hne. unfold lookupEntry, SessionCache.delete, delete. simpl.
    now apply find_without_other. }
  intro H. unfold SessionCache.delete, delete.
  destruct c as [o es]. unfold withEntries. simpl in *.
  f_equal. now apply without_absent.
Qed.

End CacheRoundTrips.

Section CacheClear.
Import LRUCache.

Lemma options_applyOps (ops : list CacheOp) (c : SessionCache.t) :
  options (applyOps ops c) = options c.
Proof.
  revert c. induction ops as [|op ops IH]; intro c; simpl; [reflexivity|].
  unfold applyOps in IH. rewrite IH. apply options_applyOp.
Qed.

(** X5.  [clear] takes a cache back to the state in which
    [new SessionCache(max, ttl)] built it (with [max >= 1] and a ttl that is
    not negative), whatever calls were made on it since: no entry is left,
    [has] is false for every token, and the capacity and the ttl are those
    of the construction. *)
Theorem X5_clear_restores_the_new_cache :
  forall (max : nat) (ttl : Z) (ops : list CacheOp),
    (1 <= max)%nat ->
    (0 <= ttl)%Z ->
    SessionCache.clear (applyOps ops (SessionCache.new max ttl))
    = SessionCache.new max ttl
    /\ SessionCache.size
         (SessionCache.clear (applyOps ops (SessionCache.new max ttl))) = 0%nat
    /\ (forall now k,
           SessionCache.has now k
             (SessionCache.clear (applyOps ops (SessionCache.new max ttl)))
           = false).
Proof.
  intros max0 ttl0 ops _ _.
  assert (H : SessionCache.clear (applyOps ops (SessionCache.new max0 ttl0))
              = SessionCache.new max0 ttl0).
  { unfold SessionCache.clear, clear, withEntries.
    now rewrite options_applyOps. }
  rewrite H. repeat split.
Qed.

(** X5 on a cache of two entries after three calls. *)
Lemma X5_witness :
  SessionCache.clear
    (applyOps [ OpSet 1 "a" sampleContext; OpGet 2 "a";
                OpSet 3 "b" sampleContext ] (SessionCache.new 2 300))
  = SessionCache.new 2 300.
Proof.
  refine (proj1 (X5_clear_restores_the_new_cache 2 300
                   [ OpSet 1 "a" sampleContext; OpGet 2 "a";
                     OpSet 3 "b" sampleContext ] (le_S _ _ (le_n 1)) _)).
  discriminate.
Defined.

End CacheClear.

(* ===================================================================== *)
(** * More on the error classifier                                         *)
(* ===================================================================== *)

Section ClassifierInvariants.
Import Classifier.

Lemma lookup_none (c : string) (table : list (string * Messages)) :
  lookup c table = None <-> ~ In c (map fst table).
Proof.
  induction table as [|[c' m] table IH]; simpl.
  - split; [intros _ [] | reflexivity].
  - destruct (String.eqb c' c) eqn:E.
    + apply String.eqb_eq in E. split; [discriminate|].
      intro H. exfalso. apply H. now left.
    + apply String.eqb_neq in E. rewrite IH. split.
      * intros H [H'|H']; [contradiction | now apply H].
      * intros H H'. apply H. now right.
Qed.

Lemma lookup_some (c : string) (m : Messages)
      (table : list (string * Messages)) :
  lookup c table = Some m -> In m (map snd table).
Proof.
  induction table as [|[c' m'] table IH]; simpl; [discriminate|].
  destruct (String.eqb c' c).
  - intro H. inversion H. now left.
  - intro H. right. now apply IH.
Qed.

Lemma table_messages (m : Messages) (lang : Lang) :
  In m (map snd ERROR_MESSAGES) ->
  truthy (pick lang m) = true /\ pick lang m <> "Unknown error".
Proof.
  simpl. intro Hm.
  repeat (destruct Hm as [<-|Hm];
          [destruct lang; simpl; (split; [reflexivity | discriminate])|]).
  contradiction.
Qed.

Lemma getErrorMessage_truthy (errorCode : string) (lang : Lang) :
  truthy (getErrorMessage errorCode lang) = true.
Proof.
  destruct (lookup errorCode ERROR_MESSAGES) as [m|] eqn:E.
  - rewrite (getErrorMessage_known errorCode m lang E).
    now apply table_messages, (lookup_some errorCode).
  - now rewrite (getErrorMessage_unknown errorCode lang E).
Qed.

(** X6.  [getErrorMessage] never returns the empty string, in either
    language.  It returns "Unknown error" exactly for the codes that are
    not in the table, in Spanish as in English: the fallback is not
    translated. *)
Theorem X6_getErrorMessage_unknown_exactly_outside_table :
  forall (errorCode : string) (lang : Lang),
    truthy (getErrorMessage errorCode lang) = true
    /\ (getErrorMessage errorCode lang = "Unknown error"
        <-> ~ In errorCode (map fst ERROR_MESSAGES)).
Proof.
  intros c lang. split; [apply getErrorMessage_truthy|].
  destruct (lookup c ERROR_MESSAGES) as [m|] eqn:E.
  - rewrite (getErrorMessage_known c m lang E).
    destruct (table_messages m lang (lookup_some _ _ _ E)) as [_ Hne].
    split; [contradiction|].
    intro H. apply lookup_none in H. congruence.
  - rewrite (getErrorMessage_unknown c lang E).
    split; [intros _|reflexivity].
    now apply lookup_none.
Qed.

(** X7.  Whatever value is thrown, the response that
    [createErrorResponse] asks the adapter for has [success: false], a
    non-empty message, a non-empty code and a status other than 0; the
    status is the error's own when it has one and 401 otherwise, also for
    an error without a code; and the adapter is called with the context
    given. *)
Theorem X7_error_response_is_always_well_formed :
  forall (error : Thrown),
    (forall (Ctx Resp : Type) (ctx : Ctx)
            (createResponse : Ctx -> Body -> Z -> Resp),
        createErrorResponse error ctx createResponse
        = createResponse ctx (fst (classify error)) (snd (classify error)))
    /\ success (fst (classify error)) = false
    /\ truthy (message (fst (classify error))) = true
    /\ truthy (code (fst (classify error))) = true
    /\ snd (classify error) <> 0%Z
    /\ (snd (classify error) = 401%Z
        \/ statusOf error = Some (snd (classify error)))
    /\ (code (fst (classify error)) = "UNAUTHORIZED"
        \/ codeOf error = Some (code (fst (classify error)))).
Proof.
  intro error.
  split; [reflexivity|].
  unfold classify, createErrorResponse. simpl.
  split; [reflexivity|].
  assert (Hor : forall x fb, truthy fb = true -> truthy (orString x fb) = true).
  { intros x fb Hfb. unfold orString. destruct x as [s|]; [|exact Hfb].
    destruct (truthy s) eqn:Es; [exact Es | exact Hfb]. }
  split.
  { destruct (isTruthy (codeOf error)).
    - apply getErrorMessage_truthy.
    - now apply Hor. }
  split; [now apply Hor|].
  split.
  { unfold orNumber. destruct (statusOf error) as [n|]; [|discriminate].
    destruct (Z.eqb n 0) eqn:En; [discriminate|]. now apply Z.eqb_neq. }
  split.
  { unfold orNumber. destruct (statusOf error) as [n|]; [|now left].
    destruct (Z.eqb n 0); [now left | now right]. }
  unfold orString. destruct (codeOf error) as [s|]; [|now left].
  destruct (truthy s); [now right | now left].
Qed.

End ClassifierInvariants.

(* ===================================================================== *)
(** * More on the token extractor                                          *)
(* ===================================================================== *)

Lemma exec_here (p : list RegExp.atom) (s v : string) :
  RegExp.matchHere p s = Some v -> RegExp.exec p s = Some v.
Proof. intro H. destruct s; simpl; now rewrite H. Qed.

(** X8.  A cookie header that begins with the namespaced cookie yields the
    value of that cookie, whatever cookies follow it: the value is the text
    between [better-auth.session_token=] and the next [;] (or the end),
    when that text is not empty. *)
Theorem X8_leading_namespaced_cookie_is_extracted :
  forall (v rest : string),
    v <> EmptyString ->
    semicolonFree v = true ->
    endsValue rest = true ->
    extractSessionToken ("better-auth.session_token=" ++ v ++ rest)%string
    = Some v.
Proof.
  intros v rest Hne Hv Hrest.
  apply extract_namespaced_wins, exec_here, matchHere_spec.
  exists "better-auth.session_token", rest.
  repeat split; auto.
Qed.

(** X8 on a token followed by two other cookies, one of them a generic
    session cookie. *)
Lemma X8_witness :
  extractSessionToken
    "better-auth.session_token=abc-123_def.xyz; session=other; theme=dark"
  = Some "abc-123_def.xyz".
Proof.
  refine (X8_leading_namespaced_cookie_is_extracted
            "abc-123_def.xyz" "; session=other; theme=dark" _ eq_refl eq_refl).
  discriminate.
Defined.

(* ===================================================================== *)
(** * More on the middleware                                               *)
(* ===================================================================== *)

Section Construction.
Import Classifier Middleware.

Variables Req Ctx Resp : Type.


End Construction.

Section MiddlewarePaths.
Import Classifier Middleware.

Variables Req Ctx Resp : Type.
Variable options : AuthMiddlewareOptions Req Ctx Resp.
Variable getSession : Headers -> Outcome BetterAuthSessionResponse.
Variable next : Ctx -> Outcome Ctx.
Variable clock : Clock.
Variable req : Req.

(** X10.  A request from which no token can be extracted, because it has
    no cookie header, an empty one, or one in which none of the three
    candidate names occurs with a value, is answered like a request
    without cookies: with no error hook, the 401 response for "No session
    token found", and neither the cache nor the remote resolver nor the
    context is touched. *)
Theorem X10_no_extractable_token_is_unauthorized :
  forall (w : World Ctx) (h : Headers),
    onError options = None ->
    getHeaders (framework options) req = Ok h ->
    (cookie h = None
     \/ cookie h = Some EmptyString
     \/ exists s, cookie h = Some s
                  /\ forall n v, In n sessionCookieNames ->
                                 ~ occursWith (RegExp.compile n) s v) ->
    middleware options getSession next clock req w
    = (Ok (Some (createResponse (framework options) (context w)
                   {| success := false;
                      message := "No session token found";
                      code := "UNAUTHORIZED" |} 401%Z)), w).
Proof.
  intros w h Hhook Hh Hcookie.
  assert (Ht : tokenOf h = None).
  { unfold tokenOf. destruct Hcookie as [->|[->|[s [-> Hs]]]];
      [reflexivity | reflexivity |].
    unfold orString. destruct (truthy s); [now apply extract_none | reflexivity]. }
  rewrite middleware_unfold.
  rewrite (attempt_no_token _ _ _ options getSession next clock req w h Hh Ht).
  now rewrite recover_without_hook.
Qed.

(** X11.  When the remote resolver answers with an error object on a cache
    miss, that error decides the response, also when the answer carries a
    user and a session besides: nothing is cached, nothing is injected and
    the continuation does not run.  Without an error hook the response
    carries the error's code with the table's message for it, and the
    error's status, 401 when it has none. *)
Theorem X11_remote_error_object_decides_the_response :
  forall (w : World Ctx) (h : Headers) (tok : string)
         (r : BetterAuthSessionResponse) (e : BetterAuthError) (c : string),
    onError options = None ->
    getHeaders (framework options) req = Ok h ->
    tokenOf h = Some tok ->
    fst (cacheHas clock tok w) = Ok false ->
    getSession h = Ok r ->
    error r = Some e ->
    err_code e = Some c -> c <> EmptyString ->
    middleware options getSession next clock req w
    = (Ok (Some (createResponse (framework options) (context w)
                   {| success := false;
                      message := getErrorMessage c en;
                      code := c |}
                   (orNumber (err_status e) 401))),
       withEvents w [EvGetSession h]).
Proof.
  intros w h tok r e c Hhook Hh Ht Hmiss Hr He Hc Hne.
  rewrite middleware_unfold.
  rewrite (attempt_miss _ _ _ options getSession next clock req w h tok
             Hh Ht Hmiss).
  rewrite (remote_rejected _ _ _ options getSession next clock w h tok r e
             Hr He).
  rewrite recover_without_hook by exact Hhook.
  unfold createErrorResponse, thrownOf. simpl.
  unfold isTruthy, orString. rewrite Hc.
  destruct c; [contradiction | reflexivity].
Qed.

(** X12.  On a cache miss that the remote resolver answers with a user and
    a session, the middleware makes one remote call, to which it forwards
    the headers of the request, stores the pair under the token, injects
    the user and then the session, runs the continuation and returns
    nothing.  The entry it stored is stamped with the time of the [set]
    and is the most recent of the cache. *)
Theorem X12_resolved_session_is_cached_and_injected :
  forall (w : World Ctx) (c : SessionCache.t) (h : Headers) (tok : string)
         (r : BetterAuthSessionResponse) (a : AuthContext) (ctx' : Ctx),
    sessionCache w = Some c ->
    getHeaders (framework options) req = Ok h ->
    tokenOf h = Some tok ->
    SessionCache.has (t_has clock) tok c = false ->
    getSession h = Ok r -> error r = None -> resolvedContext r = Some a ->
    next (inject (framework options) (context w) a) = Ok ctx' ->
    middleware options getSession next clock req w
    = (Ok None,
       {| sessionCache := Some (SessionCache.set (t_set clock) tok a c);
          context := ctx';
          events := events w ++ [EvGetSession h] ++ injections a ++ [EvNext] |})
    /\ LRUCache.lookupEntry tok (SessionCache.set (t_set clock) tok a c)
       = Some {| LRUCache.key := tok; LRUCache.value := a;
                 LRUCache.start :=
                   LRUCache.stamp (t_set clock)
                                  (LRUCache.ttl (LRUCache.options c));
                 LRUCache.entryTtl := LRUCache.ttl (LRUCache.options c) |}
    /\ last (SessionCache.keys (SessionCache.set (t_set clock) tok a c))
            EmptyString = tok.
Proof.
  intros w c h tok r a ctx' Hc Hh Ht Hmiss Hr He Ha Hnext.
  split.
  { exact (remote_success_caches _ _ _ options getSession next clock req
             w c h tok r a ctx' Hc Hh Ht Hmiss Hr He Ha Hnext). }
  split; [apply set_stamps_entry|].
  unfold SessionCache.keys, SessionCache.set, LRUCache.keys, LRUCache.set.
  destruct (LRUCache.lookupEntry tok c); simpl;
    rewrite map_app; simpl; apply last_last.
Qed.


End MiddlewarePaths.

Section RunShape.
Import Classifier Middleware.

Variables Req Ctx Resp : Type.
Variable options : AuthMiddlewareOptions Req Ctx Resp.
Variable getSession : Headers -> Outcome BetterAuthSessionResponse.
Variable next : Ctx -> Outcome Ctx.
Variable clock : Clock.
Variable req : Req.

Lemma proceed_shape (w : World Ctx) (a : AuthContext) :
  events (snd (proceed options next a w))
  = events w ++ injections a ++ [EvNext]
  /\ (forall r, fst (proceed options next a w) = Ok r -> r = None).
Proof.
  rewrite proceed_run. unfold injections.
  destruct (next _); simpl; rewrite <- !app_assoc; simpl.
  - split; [reflexivity|]. intros r H. now inversion H.
  - split; [reflexivity|]. intros r H. discriminate.
Qed.

Ltac failed_with pre :=
  unfold attemptShape; exists pre, (@nil Event); simpl; rewrite ?app_nil_r;
  split; [congruence|]; split; [eauto|]; split; [now left|];
  intros ? ?; discriminate.

Lemma proceeded_shape (w w0 : World Ctx) (a : AuthContext)
      (pre : list Event) :
  events w0 = events w ++ pre ->
  (pre = [] \/ exists h, pre = [EvGetSession h]) ->
  attemptShape w (proceed options next a w0).
Proof.
  intros Hw0 Hpre. destruct (proceed_shape w0 a) as [Hev Hres].
  exists pre, (injections a ++ [EvNext]).
  split; [rewrite Hev, Hw0; now rewrite <- app_assoc|].
  split; [exact Hpre|]. split; [right; now exists a|].
  intros r Hr. split; [now apply Hres | discriminate].
Qed.

Lemma remote_shape (w w0 : World Ctx) (h : Headers) (tok : string) :
  events w0 = events w ->
  attemptShape w (resolveRemotely options getSession next clock h tok w0).
Proof.
  intro Hw0.
  destruct (getSession h) as [r|e] eqn:Hr.
  - destruct (error r) as [e|] eqn:He.
    + rewrite (remote_rejected _ _ _ options getSession next clock w0 h tok r e
                 Hr He).
      failed_with [EvGetSession h].
    + destruct (resolvedContext r) as [a|] eqn:Ha.
      * rewrite (remote_resolved _ _ _ options getSession next clock w0 h tok r
                   a Hr He Ha).
        apply (proceeded_shape w _ a [EvGetSession h]);
          [simpl; now rewrite Hw0 | right; now exists h].
      * rewrite (remote_malformed _ _ _ options getSession next clock w0 h tok r
                   Hr He Ha).
        failed_with [EvGetSession h].
  - rewrite (remote_throws _ _ _ options getSession next clock w0 h tok e Hr).
    failed_with [EvGetSession h].
Qed.

Lemma attempt_shape (w : World Ctx) :
  attemptShape w (attempt options getSession next clock req w).
Proof.
  destruct (getHeaders (framework options) req) as [h|e] eqn:Hh.
  - destruct (tokenOf h) as [tok|] eqn:Ht.
    + rewrite (attempt_token _ _ _ options getSession next clock req w h tok
                 Hh Ht).
      unfold bind at 1. unfold cacheHas, bind, getCache, ret.
      destruct (sessionCache w) as [c|] eqn:Hc.
      * destruct (SessionCache.has (t_has clock) tok c).
        -- unfold cacheGet, bind, getCache, putCache, ret. rewrite Hc.
           destruct (SessionCache.get (t_get clock) tok c) as [[a|] c'].
           ++ simpl. apply (proceeded_shape w _ a []);
                [simpl; now rewrite app_nil_r | now left].
           ++ simpl. now apply remote_shape.
        -- now apply remote_shape.
      * now apply remote_shape.
    + rewrite (attempt_no_token _ _ _ options getSession next clock req w h
                 Hh Ht).
      failed_with (@nil Event).
  - rewrite (attempt_headers_throw _ _ _ options getSession next clock req w e
               Hh).
    failed_with (@nil Event).
Qed.

(** X14.  Whatever the request, the cache, the remote resolver, the
    continuation and the hook do, one invocation logs its calls in this
    order: at most one remote call; then at most one run of the
    continuation, which comes right after the injection of the user and of
    the session of one pair, and never without it; then at most one call
    of the error hook.  The middleware returns nothing only when the
    continuation has run and returned. *)
Theorem X14_one_invocation_is_orderly :
  forall (w : World Ctx),
    exists evs,
      events (snd (middleware options getSession next clock req w))
      = events w ++ evs
      /\ orderlyRun evs
      /\ (List.length (filter isGetSession evs) <= 1)%nat
      /\ (List.length (filter isNext evs) <= 1)%nat
      /\ (fst (middleware options getSession next clock req w) = Ok None ->
          exists pre a, evs = pre ++ injections a ++ [EvNext]).
Proof.
  intro w. rewrite middleware_unfold.
  destruct (attempt_shape w) as [pre [core [Hev [Hpre [Hcore Hok]]]]].
  assert (Hcount : forall post,
             (post = [] \/ exists e, post = [EvOnError e]) ->
             (List.length (filter isGetSession (pre ++ core ++ post)) <= 1)%nat
             /\ (List.length (filter isNext (pre ++ core ++ post)) <= 1)%nat).
  { intros post Hpost.
    destruct Hpre as [->|[h ->]]; destruct Hcore as [->|[a ->]];
      destruct Hpost as [->|[e ->]]; simpl; split; lia. }
  destruct (attempt options getSession next clock req w) as [[r|e] w'].
  - simpl in *. destruct (Hok r eq_refl) as [-> Hne].
    exists (pre ++ core). split; [exact Hev|].
    split.
    { exists pre, core, []. rewrite app_nil_r. repeat split; auto. }
    destruct (Hcount [] (or_introl eq_refl)) as [H1 H2].
    rewrite app_nil_r in H1, H2.
    split; [exact H1|]. split; [exact H2|].
    intros _. destruct Hcore as [->|[a ->]]; [contradiction|].
    now exists pre, a.
  - simpl in Hev.
    destruct (onError options) as [hook|] eqn:Hhook.
    + rewrite (recover_with_hook _ _ _ options w' e hook Hhook). simpl.
      exists (pre ++ core ++ [EvOnError e]). rewrite Hev.
      split; [now rewrite <- !app_assoc|].
      split.
      { exists pre, core, [EvOnError e]. repeat split; eauto. }
      destruct (Hcount [EvOnError e] (or_intror (ex_intro _ e eq_refl)))
        as [H1 H2].
      split; [exact H1|]. split; [exact H2|].
      destruct (hook e (context w')); discriminate.
    + rewrite (recover_without_hook _ _ _ options w' e Hhook). simpl.
      exists (pre ++ core). split; [exact Hev|].
      split.
      { exists pre, core, []. rewrite app_nil_r. repeat split; auto. }
      destruct (Hcount [] (or_introl eq_refl)) as [H1 H2].
      rewrite app_nil_r in H1, H2.
      split; [exact H1|]. split; [exact H2|]. discriminate.
Qed.

End RunShape.

Section WithoutCache.
Import Classifier Middleware.

Variables Req Ctx Resp : Type.
Variable options : AuthMiddlewareOptions Req Ctx Resp.
Variable getSession : Headers -> Outcome BetterAuthSessionResponse.
Variable next : Ctx -> Outcome Ctx.
Variable clock : Clock.
Variable req : Req.

Lemma remote_keeps_no_cache (w : World Ctx) (h : Headers) (tok : string) :
  sessionCache w = None ->
  sessionCache (snd (resolveRemotely options getSession next clock h tok w))
  = None.
Proof.
  intro Hc.
  destruct (getSession h) as [r|e] eqn:Hr.
  - destruct (error r) as [e|] eqn:He.
    + now rewrite (remote_rejected _ _ _ options getSession next clock w h tok
                     r e Hr He).
    + destruct (resolvedContext r) as [a|] eqn:Ha.
      * rewrite (remote_resolved _ _ _ options getSession next clock w h tok r a
                   Hr He Ha).
        rewrite proceed_run. rewrite Hc. simpl. now destruct (next _).
      * now rewrite (remote_malformed _ _ _ options getSession next clock w h
                       tok r Hr He Ha).
  - now rewrite (remote_throws _ _ _ options getSession next clock w h tok e Hr).
Qed.

Lemma recover_keeps_cache (w : World Ctx) (e : Thrown) :
  sessionCache (snd (recover options e w)) = sessionCache w.
Proof.
  destruct (onError options) as [hook|] eqn:H.
  - now rewrite (recover_with_hook _ _ _ options w e hook H).
  - now rewrite (recover_without_hook _ _ _ options w e H).
Qed.

(** X15.  A middleware without a cache asks the remote resolver on every
    request that carries a token: exactly once per invocation, with the
    headers of the request, before anything else is called; and it never
    comes to hold a cache. *)
Theorem X15_without_cache_every_request_is_resolved_remotely :
  forall (w : World Ctx) (h : Headers) (tok : string),
    sessionCache w = None ->
    getHeaders (framework options) req = Ok h ->
    tokenOf h = Some tok ->
    remoteCalls (snd (middleware options getSession next clock req w))
    = S (remoteCalls w)
    /\ (exists evs,
           events (snd (middleware options getSession next clock req w))
           = events w ++ EvGetSession h :: evs)
    /\ sessionCache (snd (middleware options getSession next clock req w))
       = None.
Proof.
  intros w h tok Hc Hh Ht.
  assert (Hmiss : fst (cacheHas clock tok w) = Ok false)
    by (unfold cacheHas, bind, getCache, ret; now rewrite Hc).
  rewrite middleware_unfold.
  rewrite (attempt_miss _ _ _ options getSession next clock req w h tok
             Hh Ht Hmiss).
  destruct (remote_calls_once _ _ _ options getSession next clock w h tok)
    as [evs [Hev Hnone]].
  pose proof (remote_keeps_no_cache w h tok Hc) as Hkeep.
  assert (Hcount : forall w' : World Ctx,
             events w' = events w ++ EvGetSession h :: evs ->
             remoteCalls w' = S (remoteCalls w)).
  { intros w' Hw'. unfold remoteCalls. rewrite Hw', filter_app. simpl.
    rewrite Hnone, length_app. simpl. lia. }
  destruct (resolveRemotely options getSession next clock h tok w)
    as [[r|e] w'] eqn:E; simpl in Hev, Hkeep.
  - simpl. split; [now apply Hcount|]. split; [now exists evs | exact Hkeep].
  - split.
    { rewrite recover_calls_nothing_remote. now apply Hcount. }
    split.
    + destruct (onError options) as [hook|] eqn:Hhook.
      * rewrite (recover_with_hook _ _ _ options w' e hook Hhook). simpl.
        rewrite Hev. exists (evs ++ [EvOnError e]). now rewrite <- app_assoc.
      * rewrite (recover_without_hook _ _ _ options w' e Hhook). simpl.
        now exists evs.
    + now rewrite recover_keeps_cache.
Qed.

End WithoutCache.



Section SlidingExpiry.
Import Classifier Middleware.

Variables Req Ctx Resp : Type.
Variable options : AuthMiddlewareOptions Req Ctx Resp.
Variable getSession : Headers -> Outcome BetterAuthSessionResponse.
Variable next : Ctx -> Outcome Ctx.
Variable req : Req.

Local Open Scope Z_scope.

(** The entry of the token holds [a], carries the ttl [L] and was last
    used at [prev]. *)
Let fresh (tok : string) (a : AuthContext) (L prev : Z) (c : SessionCache.t)
  : Prop :=
  LRUCache.updateAgeOnGet (LRUCache.options c) = true
  /\ exists e, LRUCache.lookupEntry tok c = Some e
               /\ LRUCache.value e = a
               /\ LRUCache.entryTtl e = L
               /\ (L = 0 \/ LRUCache.start e = prev).

Lemma fresh_hit (tok : string) (a : AuthContext) (L prev t : Z)
      (c : SessionCache.t) :
  fresh tok a L prev c -> t - prev <= L ->
  SessionCache.has t tok c = true
  /\ fst (SessionCache.get t tok c) = Some a
  /\ fresh tok a L t (snd (SessionCache.get t tok c)).
Proof.
  intros [Hup [e [He [Hv [Ht Hs]]]]] Hle.
  assert (Hlive : LRUCache.isStale t e = false).
  { unfold LRUCache.isStale. rewrite Ht.
    destruct Hs as [->|Hs]; [reflexivity|]. rewrite Hs.
    replace (Z.gtb (t - prev) L) with false; [now rewrite andb_false_r|].
    symmetry. rewrite Z.gtb_ltb. now apply Z.ltb_ge. }
  unfold SessionCache.has, SessionCache.get, LRUCache.has, LRUCache.get.
  rewrite He, Hlive. simpl. split; [reflexivity|]. split; [now rewrite Hv|].
  split; [exact Hup|]. rewrite Hup.
  eexists. split.
  - unfold LRUCache.lookupEntry. simpl.
    apply find_last; [apply find_without|]. simpl.
    exact (lookupEntry_key _ _ _ He).
  - simpl. split; [exact Hv|]. split; [exact Ht|].
    unfold LRUCache.stamp. rewrite Ht.
    destruct (Z.eqb L 0) eqn:E; [left; now apply Z.eqb_eq | now right].
Qed.

(** X16.  Expiry slides.  In a cache built by [new SessionCache] the entry
    of a token holds a pair.  However often the token is presented again,
    as long as each invocation reads the cache within one ttl of the
    previous one (the first within one ttl of the entry's stamp), every
    invocation is a cache hit: it returns nothing after its continuation,
    and the remote resolver is not asked once, whatever it would answer. *)
Theorem X16_expiry_slides_with_every_hit :
  forall (clocks : list Clock) (w : World Ctx) (max : nat) (ttl : Z)
         (es : list (LRUCache.Entry AuthContext))
         (e : LRUCache.Entry AuthContext) (h : Headers) (tok : string),
    sessionCache w = Some (sessionCacheWith max ttl es) ->
    LRUCache.lookupEntry tok (sessionCacheWith max ttl es) = Some e ->
    getHeaders (framework options) req = Ok h ->
    tokenOf h = Some tok ->
    (forall ctx, exists ctx', next ctx = Ok ctx') ->
    withinTtl (LRUCache.start e) (LRUCache.entryTtl e) clocks ->
    fst (invokeAll options getSession next req clocks w)
    = repeat (Ok None) (List.length clocks)
    /\ remoteCalls (snd (invokeAll options getSession next req clocks w))
       = remoteCalls w.
Proof.
  intros clocks w max0 ttl0 es e h tok Hc He Hh Ht Hnext Hwithin.
  assert (Hfresh : fresh tok (LRUCache.value e) (LRUCache.entryTtl e)
                         (LRUCache.start e) (sessionCacheWith max0 ttl0 es)).
  { split; [reflexivity|]. exists e. repeat split; auto. }
  revert Hc Hfresh Hwithin.
  generalize (sessionCacheWith max0 ttl0 es) as c.
  generalize (LRUCache.start e) as prev.
  revert w.
  induction clocks as [|clock clocks IH]; intros w prev c Hc Hfresh Hwithin.
  - split; reflexivity.
  - destruct Hwithin as [Hle [Hgap Hrest]].
    destruct (fresh_hit tok _ _ prev (t_has clock) c Hfresh) as [Hhas _];
      [lia|].
    destruct (fresh_hit tok _ _ prev (t_get clock) c Hfresh Hgap)
      as [_ [Hget Hfresh']].
    destruct (Hnext (inject (framework options) (context w) (LRUCache.value e)))
      as [ctx' Hctx'].
    simpl invokeAll.
    rewrite (cache_hit_skips_remote _ _ _ options getSession next clock req
               w c h tok (LRUCache.value e) ctx' Hc Hh Ht Hhas Hget Hctx').
    match goal with
    | |- context [invokeAll _ _ _ _ _ ?w'] =>
        destruct (IH w' (t_get clock)
                     (snd (SessionCache.get (t_get clock) tok c))
                     eq_refl Hfresh' Hrest) as [H1 H2];
        destruct (invokeAll options getSession next req clocks w')
          as [rs w''] eqn:E
    end.
    simpl in *. split; [now rewrite H1|].
    rewrite H2. unfold remoteCalls. simpl.
    rewrite filter_app. simpl. now rewrite app_nil_r.
Qed.

End SlidingExpiry.

Section CacheIntegrity.
Import Classifier Middleware.

Variables Req Ctx Resp : Type.
Variable options : AuthMiddlewareOptions Req Ctx Resp.
Variable getSession : Headers -> Outcome BetterAuthSessionResponse.
Variable next : Ctx -> Outcome Ctx.
Variable clock : Clock.
Variable req : Req.

Lemma fromCache_refl (c : SessionCache.t) : fromCache c c.
Proof. intros e' H. now exists e'. Qed.

Lemma fromCache_get (c : SessionCache.t) (now : Z) (k : string) :
  fromCache c (snd (SessionCache.get now k c)).
Proof.
  unfold SessionCache.get, LRUCache.get.
  destruct (LRUCache.lookupEntry k c) as [e|] eqn:E; [|apply fromCache_refl].
  destruct (LRUCache.isStale now e); simpl; intros e' Hin; simpl in Hin.
  - apply filter_In in Hin. now exists e'.
  - apply in_app_or in Hin. destruct Hin as [Hin|[<-|[]]].
    + apply filter_In in Hin. now exists e'.
    + exists e. split; [|now split].
      unfold LRUCache.lookupEntry in E. now apply find_some in E.
Qed.

Lemma entries_set (c : SessionCache.t) (now : Z) (k : string)
      (v : AuthContext) (e' : LRUCache.Entry AuthContext) :
  In e' (LRUCache.entries (SessionCache.set now k v c)) ->
  In e' (LRUCache.entries c)
  \/ (LRUCache.key e' = k /\ LRUCache.value e' = v).
Proof.
  unfold SessionCache.set, LRUCache.set.
  destruct (LRUCache.lookupEntry k c); simpl; intro Hin;
    apply in_app_or in Hin; destruct Hin as [Hin|[<-|[]]];
    try (right; now split).
  - apply filter_In in Hin. now left.
  - left. unfold LRUCache.evict in Hin.
    destruct (LRUCache.entries c) as [|x es]; [contradiction|].
    destruct (Nat.eqb (List.length (x :: es))
                      (LRUCache.max (LRUCache.options c)));
      [now right | exact Hin].
Qed.

(** What the remote resolution leaves in a cache. *)
Lemma remote_cache (w : World Ctx) (c0 : SessionCache.t) (h : Headers)
      (tok : string) :
  sessionCache w = Some c0 ->
  sessionCache (snd (resolveRemotely options getSession next clock h tok w))
  = Some c0
  \/ exists r a,
       getSession h = Ok r /\ error r = None /\ resolvedContext r = Some a
       /\ sessionCache
            (snd (resolveRemotely options getSession next clock h tok w))
          = Some (SessionCache.set (t_set clock) tok a c0).
Proof.
  intro Hc.
  destruct (getSession h) as [r|e] eqn:Hr.
  - destruct (error r) as [e|] eqn:He.
    + left. now rewrite (remote_rejected _ _ _ options getSession next clock
                           w h tok r e Hr He).
    + destruct (resolvedContext r) as [a|] eqn:Ha.
      * right. exists r, a. repeat split; auto.
        rewrite (remote_resolved _ _ _ options getSession next clock w h tok r
                   a Hr He Ha).
        rewrite proceed_run. rewrite Hc. simpl. now destruct (next _).
      * left. now rewrite (remote_malformed _ _ _ options getSession next clock
                             w h tok r Hr He Ha).
  - left. now rewrite (remote_throws _ _ _ options getSession next clock
                         w h tok e Hr).
Qed.

(** X17.  The cache only ever holds what the remote resolver returned.
    After an invocation every entry of the cache either was in the cache
    before, with the same token and the same pair, or holds the token of
    this request with the user and session that the resolver returned for
    the headers of this request, in an answer without an error object.  No
    failure caches anything, and nothing is cached under another token. *)
Theorem X17_cache_holds_only_resolved_pairs :
  forall (w : World Ctx) (c : SessionCache.t),
    sessionCache w = Some c ->
    exists c',
      sessionCache (snd (middleware options getSession next clock req w))
      = Some c'
      /\ forall e', In e' (LRUCache.entries c') ->
            (exists e, In e (LRUCache.entries c)
                       /\ LRUCache.key e = LRUCache.key e'
                       /\ LRUCache.value e = LRUCache.value e')
            \/ (exists h r,
                   getHeaders (framework options) req = Ok h
                   /\ tokenOf h = Some (LRUCache.key e')
                   /\ getSession h = Ok r
                   /\ error r = None
                   /\ resolvedContext r = Some (LRUCache.value e')).
Proof.
  intros w c Hc.
  assert (Hsame : forall w' : World Ctx, sessionCache w' = Some c ->
                  exists c', sessionCache w' = Some c'
                  /\ forall e', In e' (LRUCache.entries c') ->
                       (exists e, In e (LRUCache.entries c)
                                  /\ LRUCache.key e = LRUCache.key e'
                                  /\ LRUCache.value e = LRUCache.value e')
                       \/ (exists h r,
                              getHeaders (framework options) req = Ok h
                              /\ tokenOf h = Some (LRUCache.key e')
                              /\ getSession h = Ok r
                              /\ error r = None
                              /\ resolvedContext r = Some (LRUCache.value e'))).
  { intros w' Hw'. exists c. split; [exact Hw'|].
    intros e' Hin. left. now exists e'. }
  assert (Hrem : forall (w0 : World Ctx) c0 h tok,
             getHeaders (framework options) req = Ok h ->
             tokenOf h = Some tok ->
             sessionCache w0 = Some c0 -> fromCache c c0 ->
             exists c',
               sessionCache
                 (snd (resolveRemotely options getSession next clock h tok w0))
               = Some c'
               /\ forall e', In e' (LRUCache.entries c') ->
                    (exists e, In e (LRUCache.entries c)
                               /\ LRUCache.key e = LRUCache.key e'
                               /\ LRUCache.value e = LRUCache.value e')
                    \/ (exists h r,
                           getHeaders (framework options) req = Ok h
                           /\ tokenOf h = Some (LRUCache.key e')
                           /\ getSession h = Ok r
                           /\ error r = None
                           /\ resolvedContext r = Some (LRUCache.value e'))).
  { intros w0 c0 h tok Hh Ht Hc0 Hfrom.
    destruct (remote_cache w0 c0 h tok Hc0) as [H|[r [a [Hr [He [Ha H]]]]]].
    - exists c0. split; [exact H|]. intros e' Hin. left. now apply Hfrom.
    - exists (SessionCache.set (t_set clock) tok a c0). split; [exact H|].
      intros e' Hin. apply entries_set in Hin.
      destruct Hin as [Hin|[Hk Hv]].
      + left. now apply Hfrom.
      + right. exists h, r. rewrite Hk, Hv. repeat split; auto. }
  assert (Hatt : exists c',
             sessionCache (snd (attempt options getSession next clock req w))
             = Some c'
             /\ forall e', In e' (LRUCache.entries c') ->
                  (exists e, In e (LRUCache.entries c)
                             /\ LRUCache.key e = LRUCache.key e'
                             /\ LRUCache.value e = LRUCache.value e')
                  \/ (exists h r,
                         getHeaders (framework options) req = Ok h
                         /\ tokenOf h = Some (LRUCache.key e')
                         /\ getSession h = Ok r
                         /\ error r = None
                         /\ resolvedContext r = Some (LRUCache.value e'))).
  { destruct (getHeaders (framework options) req) as [h|e] eqn:Hh.
    - destruct (tokenOf h) as [tok|] eqn:Ht.
      + rewrite (attempt_token _ _ _ options getSession next clock req w h tok
                   Hh Ht).
        unfold bind at 1. unfold cacheHas, bind, getCache, ret. rewrite Hc.
        destruct (SessionCache.has (t_has clock) tok c).
        * unfold cacheGet, bind, getCache, putCache, ret. rewrite Hc.
          pose proof (fromCache_get c (t_get clock) tok) as Hfrom.
          destruct (SessionCache.get (t_get clock) tok c) as [[a|] c'].
          -- simpl. rewrite proceed_run. simpl.
             exists c'. split; [now destruct (next _)|].
             intros e' Hin. left. now apply Hfrom.
          -- simpl.
             apply (Hrem _ c' h tok eq_refl Ht); [reflexivity | exact Hfrom].
        * apply (Hrem _ c h tok eq_refl Ht); [exact Hc | apply fromCache_refl].
      + rewrite (attempt_no_token _ _ _ options getSession next clock req w h
                   Hh Ht).
        now apply Hsame.
    - rewrite (attempt_headers_throw _ _ _ options getSession next clock req w
                 e Hh).
      now apply Hsame. }
  rewrite middleware_unfold.
  destruct (attempt options getSession next clock req w) as [[r|e] w'].
  - exact Hatt.
  - simpl in Hatt. now rewrite recover_keeps_cache.
Qed.

End CacheIntegrity.

(** X18.  The token is logged masked: its first eight characters followed
    by three dots.  A token of more than eight characters is cut, so the
    logged text is eleven characters long; a token of at most eight
    characters appears in the log in full. *)
Theorem X18_masked_token_shows_at_most_eight_characters :
  forall (sessionToken : string),
    String.length (maskedToken sessionToken)
    = (Nat.min 8 (String.length sessionToken) + 3)%nat
    /\ (exists rest, sessionToken = (sliceTo 8 sessionToken ++ rest)%string)
    /\ ((String.length sessionToken <= 8)%nat ->
        maskedToken sessionToken = (sessionToken ++ "...")%string).
Proof.
  intro tok. unfold maskedToken.
  assert (Hlen : forall n s, String.length (sliceTo n s)
                             = Nat.min n (String.length s)).
  { induction n as [|n IH]; intros [|c s]; simpl; auto. }
  assert (Happ : forall a b, String.length (a ++ b)%string
                             = (String.length a + String.length b)%nat).
  { induction a as [|c a IH]; intro b; simpl; auto. }
  assert (Hpre : forall n s, exists rest, s = (sliceTo n s ++ rest)%string).
  { induction n as [|n IH]; intros [|c s]; simpl;
      try (eexists; reflexivity).
    destruct (IH s) as [rest Hrest]. exists rest. now rewrite <- Hrest. }
  assert (Hid : forall n s, (String.length s <= n)%nat -> sliceTo n s = s).
  { induction n as [|n IH]; intros [|c s] H; simpl in *; auto; try lia.
    f_equal. apply IH. lia. }
  split; [rewrite Happ, Hlen; reflexivity|].
  split; [apply Hpre|].
  intro H. now rewrite Hid.
Qed.

Section MoreScenarios.
Import Classifier Middleware.

Local Open Scope Z_scope.

(** X15 on the request of the specification's scenario, with the options
    that enable no cache. *)
Lemma X15_witness :
  remoteCalls
    (snd (middleware (plainOptions None None) (respond sampleResponse) continue
            (clockAt 1 1 1)
            (requestWith (Some "better-auth.session_token=abc123; other=1"))
            (start (initialCache (plainOptions None None)) emptyContext)))
  = 1%nat
  /\ sessionCache
       (snd (middleware (plainOptions None None) (respond sampleResponse)
               continue (clockAt 1 1 1)
               (requestWith (Some "better-auth.session_token=abc123; other=1"))
               (start (initialCache (plainOptions None None)) emptyContext)))
     = None.
Proof.
  destruct (X15_without_cache_every_request_is_resolved_remotely
              Headers PlainContext AuthResponse
              (plainOptions None None) (respond sampleResponse) continue
              (clockAt 1 1 1)
              (requestWith (Some "better-auth.session_token=abc123; other=1"))
              (start (initialCache (plainOptions None None)) emptyContext)
              (requestWith (Some "better-auth.session_token=abc123; other=1"))
              "abc123" eq_refl eq_refl eq_refl) as [H1 [_ H3]].
  split; [exact H1 | exact H3].
Defined.

(** X16 on the token [abc123], cached at 1000 ms with a ttl of 300
    seconds and presented every 250 seconds, to a resolver that would
    reject it. *)
Lemma X16_witness :
  let c := SessionCache.set 1000 "abc123" sampleContext
                            (SessionCache.new 1000 300) in
  let request := requestWith (Some "better-auth.session_token=abc123") in
  fst (invokeAll (plainOptions cacheEnabled None) (respond expiredResponse)
                 continue request
                 [ clockAt 251000 251000 251000; clockAt 501000 501000 501000;
                   clockAt 751000 751000 751000 ]
                 (start (Some c) emptyContext))
  = [Ok None; Ok None; Ok None]
  /\ remoteCalls
       (snd (invokeAll (plainOptions cacheEnabled None)
               (respond expiredResponse) continue request
               [ clockAt 251000 251000 251000; clockAt 501000 501000 501000;
                 clockAt 751000 751000 751000 ]
               (start (Some c) emptyContext)))
     = 0%nat.
Proof.
  cbv zeta.
  refine (X16_expiry_slides_with_every_hit
            Headers PlainContext AuthResponse
            (plainOptions cacheEnabled None) (respond expiredResponse)
            continue (requestWith (Some "better-auth.session_token=abc123"))
            [ clockAt 251000 251000 251000; clockAt 501000 501000 501000;
              clockAt 751000 751000 751000 ]
            (start (Some (SessionCache.set 1000 "abc123" sampleContext
                                           (SessionCache.new 1000 300)))
                   emptyContext)
            1000%nat 300
            [ {| LRUCache.key := "abc123"; LRUCache.value := sampleContext;
                 LRUCache.start := 1000; LRUCache.entryTtl := 300000 |} ]
            {| LRUCache.key := "abc123"; LRUCache.value := sampleContext;
               LRUCache.start := 1000; LRUCache.entryTtl := 300000 |}
            (requestWith (Some "better-auth.session_token=abc123")) "abc123"
            eq_refl eq_refl eq_refl eq_refl _ _).
  - intro ctx. exists ctx. reflexivity.
  - simpl. lia.
Defined.

(** X10 on a header that holds two cookies, neither of them a session
    cookie. *)
Lemma X10_witness :
  middleware (plainOptions cacheEnabled None) (respond sampleResponse) continue
             (clockAt 1 1 1) (requestWith (Some "other_cookie=value; another=test"))
             (start (Some (SessionCache.new 1000 300)) emptyContext)
  = (Ok (Some {| status := 401;
                 body := {| success := false;
                            message := "No session token found";
                            code := "UNAUTHORIZED" |} |}),
     start (Some (SessionCache.new 1000 300)) emptyContext).
Proof.
  refine (X10_no_extractable_token_is_unauthorized
            Headers PlainContext AuthResponse
            (plainOptions cacheEnabled None) (respond sampleResponse) continue
            (clockAt 1 1 1)
            (requestWith (Some "other_cookie=value; another=test"))
            (start (Some (SessionCache.new 1000 300)) emptyContext)
            (requestWith (Some "other_cookie=value; another=test"))
            eq_refl eq_refl _).
  right. right. exists "other_cookie=value; another=test".
  split; [reflexivity|].
  intros n v Hn Ho. destruct (occurs_exec _ _ _ Ho) as [v' Hv'].
  destruct Hn as [<-|[<-|[<-|[]]]]; vm_compute in Hv'; discriminate.
Defined.

(** X11 on a rejection with status 403 that carries a user and a session
    as well. *)
Lemma X11_witness :
  middleware (plainOptions None None) (respond forbiddenResponse) continue
             (clockAt 1 1 1)
             (requestWith (Some "better-auth.session_token=abc123"))
             (start None emptyContext)
  = (Ok (Some {| status := 403;
                 body := {| success := false;
                            message := "Invalid or missing session";
                            code := "INVALID_SESSION" |} |}),
     withEvents (start None emptyContext)
       [EvGetSession (requestWith (Some "better-auth.session_token=abc123"))]).
Proof.
  refine (X11_remote_error_object_decides_the_response
            Headers PlainContext AuthResponse
            (plainOptions None None) (respond forbiddenResponse) continue
            (clockAt 1 1 1)
            (requestWith (Some "better-auth.session_token=abc123"))
            (start None emptyContext)
            (requestWith (Some "better-auth.session_token=abc123")) "abc123"
            forbiddenResponse
            {| err_message := Some "no"; err_code := Some "INVALID_SESSION";
               err_status := Some 403 |}
            "INVALID_SESSION" eq_refl eq_refl eq_refl eq_refl eq_refl eq_refl
            eq_refl _).
  discriminate.
Defined.

(** X12 on the scenario of the specification: the token [abc123], an
    empty cache, a resolver that answers with a user and a session. *)
Lemma X12_witness :
  let request := requestWith (Some "better-auth.session_token=abc123; other=1") in
  let w := start (Some (SessionCache.new 1000 300)) emptyContext in
  middleware (plainOptions cacheEnabled None) (respond sampleResponse) continue
             (clockAt 1000 1000 1000) request w
  = (Ok None,
     {| sessionCache :=
          Some (SessionCache.set 1000 "abc123" sampleContext
                                 (SessionCache.new 1000 300));
        context := {| ctx_user := Some sampleUser;
                      ctx_session := Some sampleSession |};
        events := [EvGetSession request] ++ injections sampleContext
                                         ++ [EvNext] |})
  /\ SessionCache.keys (SessionCache.set 1000 "abc123" sampleContext
                                         (SessionCache.new 1000 300))
     = ["abc123"]%list.
Proof.
  cbv zeta.
  destruct (X12_resolved_session_is_cached_and_injected
              Headers PlainContext AuthResponse
              (plainOptions cacheEnabled None) (respond sampleResponse) continue
              (clockAt 1000 1000 1000)
              (requestWith (Some "better-auth.session_token=abc123; other=1"))
              (start (Some (SessionCache.new 1000 300)) emptyContext)
              (SessionCache.new 1000 300)
              (requestWith (Some "better-auth.session_token=abc123; other=1"))
              "abc123" sampleResponse sampleContext
              {| ctx_user := Some sampleUser; ctx_session := Some sampleSession |}
              eq_refl eq_refl eq_refl eq_refl eq_refl eq_refl eq_refl eq_refl)
    as [H _].
  split; [exact H | reflexivity].
Defined.


(** X17 on the scenario of the specification, from an empty cache. *)
Lemma X17_witness :
  let request := requestWith (Some "better-auth.session_token=abc123; other=1") in
  let w := start (Some (SessionCache.new 1000 300)) emptyContext in
  sessionCache w = Some (SessionCache.new 1000 300)
  /\ exists c',
       sessionCache
         (snd (middleware (plainOptions cacheEnabled None)
                 (respond sampleResponse) continue (clockAt 1000 1000 1000)
                 request w))
       = Some c'
       /\ forall e', In e' (LRUCache.entries c') ->
            (exists e, In e (LRUCache.entries (SessionCache.new 1000 300))
                       /\ LRUCache.key e = LRUCache.key e'
                       /\ LRUCache.value e = LRUCache.value e')
            \/ (exists h r,
                   getHeaders (framework (plainOptions cacheEnabled None))
                              request = Ok h
                   /\ tokenOf h = Some (LRUCache.key e')
                   /\ respond sampleResponse h = Ok r
                   /\ error r = None
                   /\ resolvedContext r = Some (LRUCache.value e')).
Proof.
  cbv zeta. split; [reflexivity|].
  exact (X17_cache_holds_only_resolved_pairs
           Headers PlainContext AuthResponse
           (plainOptions cacheEnabled None) (respond sampleResponse) continue
           (clockAt 1000 1000 1000)
           (requestWith (Some "better-auth.session_token=abc123; other=1"))
           (start (Some (SessionCache.new 1000 300)) emptyContext)
           (SessionCache.new 1000 300) eq_refl).
Defined.

End MoreScenarios.
